(** * Table-of-contents generator (toc.py): shallow embedding and properties

    The program is one Python function, [generate_table_of_contents], built
    from three library facilities: [re.findall] / [re.sub] on three fixed
    patterns, [str.splitlines] and [str.join].

    Strings are modelled as lists of 8-bit characters read as the code points
    U+0000..U+00FF, with Python's own classification of those code points
    ([str.isspace], [str.isalnum], [str.lower], the line boundaries of
    [str.splitlines]).  The regular expressions are not replaced by
    hand-written scanners: they are kept as data and run by a small
    backtracking matcher that follows the semantics of Python's [re] for the
    constructs toc.py uses (MULTILINE anchors, character classes, greedy
    [+] and [*], capture groups).  The scanning loop of [re.findall] and
    [re.sub] is a loop over positions and is modelled with fuel; that the
    fuel given always suffices is part of what is proved.

    The module-level statements of toc.py, which read README.md.notoc and
    write README.md, are modelled as [main]: the files are given by their
    texts, and what the platform raises on reading and on writing is
    given with them. *)

From Stdlib Require Import Ascii String List Bool Arith Lia.
Import ListNotations.

Open Scope list_scope.

(** ** Python strings and the [str] methods used by toc.py *)

Module Str.

Definition str : Type := list ascii.

(** A literal. *)
Definition L (s : string) : str := list_ascii_of_string s.

(** The one-character string "\n". *)
Definition nl : str := ["010"%char].

Definition code (c : ascii) : nat := nat_of_ascii c.

Definition in_range (lo hi : nat) (c : ascii) : bool :=
  (lo <=? code c) && (code c <=? hi).

(** [str.isspace] on one character; it is also the class [\s] of [re]. *)
Definition isspace (c : ascii) : bool :=
  in_range 9 13 c || in_range 28 32 c || (code c =? 133) || (code c =? 160).

(** [str.isalpha] on one character. *)
Definition isalpha (c : ascii) : bool :=
  in_range 65 90 c || in_range 97 122 c
  || (code c =? 170) || (code c =? 181) || (code c =? 186)
  || in_range 192 214 c || in_range 216 246 c || in_range 248 255 c.

(** [isdecimal or isdigit or isnumeric] on one character: the decimal
    digits, the superscript digits and the vulgar fractions. *)
Definition isnumeric (c : ascii) : bool :=
  in_range 48 57 c || in_range 178 179 c || (code c =? 185)
  || in_range 188 190 c.

(** [str.isalnum] on one character. *)
Definition isalnum (c : ascii) : bool := isalpha c || isnumeric c.

(** The line boundaries recognised by [str.splitlines]. *)
Definition is_linebreak (c : ascii) : bool :=
  in_range 10 13 c || in_range 28 30 c || (code c =? 133).

(** [str.lower]: on these code points it works character by character. *)
Definition lower_char (c : ascii) : ascii :=
  if in_range 65 90 c || in_range 192 214 c || in_range 216 222 c
  then ascii_of_nat (code c + 32)
  else c.

Definition lower (s : str) : str := map lower_char s.

(** [s.count(c)] for a one-character needle. *)
Definition count (c : ascii) (s : str) : nat :=
  length (filter (Ascii.eqb c) s).

(** [s * n]. *)
Fixpoint mul (s : str) (n : nat) : str :=
  match n with
  | 0 => []
  | S n' => s ++ mul s n'
  end.

(** [s == t]. *)
Fixpoint eqb (s t : str) : bool :=
  match s, t with
  | [], [] => true
  | c :: s', d :: t' => Ascii.eqb c d && eqb s' t'
  | _, _ => false
  end.

(** [sep.join(parts)]. *)
Fixpoint join (sep : str) (parts : list str) : str :=
  match parts with
  | [] => []
  | [x] => x
  | x :: rest => x ++ sep ++ join sep rest
  end.

(** [s.splitlines()]: the lines without their terminators; "\r\n" is one
    terminator; a terminator at the very end opens no further line. *)
Fixpoint splitlines (s : str) : list str :=
  match s with
  | [] => []
  | c :: s' =>
      if is_linebreak c then
        [] :: match s' with
              | d :: s'' =>
                  if Ascii.eqb c "013"%char && Ascii.eqb d "010"%char
                  then splitlines s''
                  else splitlines s'
              | [] => []
              end
      else
        match splitlines s' with
        | [] => [[c]]
        | line :: lines => (c :: line) :: lines
        end
  end.

(** [s.split("\n")]: the pieces between newline characters, that is, the
    sequence that ["\n".join] put together. *)
Fixpoint split_nl (s : str) : list str :=
  match s with
  | [] => [[]]
  | c :: s' =>
      if Ascii.eqb c "010"%char then [] :: split_nl s'
      else match split_nl s' with
           | [] => [[c]]
           | piece :: pieces => (c :: piece) :: pieces
           end
  end.

(** [s.endswith("\n")]. *)
Definition ends_with_newline (s : str) : bool :=
  match rev s with
  | c :: _ => Ascii.eqb c "010"%char
  | [] => false
  end.

End Str.

Import Str.

(** Sequencing of computations that may stop (out of fuel). *)
Notation "x <- m ;; k" :=
  (match m with Some x => k | None => None end)
  (at level 61, m at next level, right associativity).

(** ** The part of Python's [re] that toc.py uses *)

Module Re.

(** A pattern is a sequence of atoms.  [Bol] and [Eol] are [^] and [$]
    under [re.MULTILINE]; [Cls p] is one character of the class [p];
    [Plus p] and [Star p] are the greedy [p+] and [p*]; [Open] and
    [Close] are the parentheses of a capture group. *)
Inductive atom : Type :=
| Bol
| Eol
| Cls (p : ascii -> bool)
| Plus (p : ascii -> bool)
| Star (p : ascii -> bool)
| Open
| Close.

(** The class [.] (without [re.DOTALL]): anything but "\n". *)
Definition dot (c : ascii) : bool := negb (Ascii.eqb c "010"%char).

(** The class [\w] on str patterns: alphanumeric or underscore. *)
Definition word (c : ascii) : bool := isalnum c || Ascii.eqb c "_"%char.

(** A position in the subject is given by the character before it
    ([None] at the start of the string) and the text after it. *)
Definition at_bol (prev : option ascii) : bool :=
  match prev with
  | None => true
  | Some c => Ascii.eqb c "010"%char
  end.

Definition at_eol (s : str) : bool :=
  match s with
  | [] => true
  | c :: _ => Ascii.eqb c "010"%char
  end.

(** The character before the position reached after reading [m]. *)
Definition before (prev : option ascii) (m : str) : option ascii :=
  match rev m with
  | c :: _ => Some c
  | [] => prev
  end.

(** Length of the longest prefix of [s] made of characters of [p]. *)
Fixpoint run (p : ascii -> bool) (s : str) : nat :=
  match s with
  | c :: s' => if p c then S (run p s') else 0
  | [] => 0
  end.

(** A successful match: the text read by each atom of the pattern, in
    order, and the rest of the subject. *)
Definition result : Type := list str * str.

Definition push (seg : str) (r : option result) : option result :=
  match r with
  | Some (segs, rest) => Some (seg :: segs, rest)
  | None => None
  end.

(** Greedy repetition with backtracking: give [n] characters to the
    repetition and run the rest of the pattern [k]; when that fails give
    one character back, never going below [min]. *)
Fixpoint greedy (k : option ascii -> str -> option result)
    (min n : nat) (prev : option ascii) (s : str) : option result :=
  if n <? min then None
  else
    match k (before prev (firstn n s)) (skipn n s) with
    | Some (segs, rest) => Some (firstn n s :: segs, rest)
    | None =>
        match n with
        | 0 => None
        | S n' => greedy k min n' prev s
        end
    end.

(** Match the pattern at the current position. *)
Fixpoint match_here (pat : list atom) (prev : option ascii) (s : str)
    {struct pat} : option result :=
  match pat with
  | [] => Some ([], s)
  | Bol :: pat' =>
      if at_bol prev then push [] (match_here pat' prev s) else None
  | Eol :: pat' =>
      if at_eol s then push [] (match_here pat' prev s) else None
  | Cls p :: pat' =>
      match s with
      | c :: s' =>
          if p c then push [c] (match_here pat' (Some c) s') else None
      | [] => None
      end
  | Plus p :: pat' => greedy (match_here pat') 1 (run p s) prev s
  | Star p :: pat' => greedy (match_here pat') 0 (run p s) prev s
  | Open :: pat' => push [] (match_here pat' prev s)
  | Close :: pat' => push [] (match_here pat' prev s)
  end.

(** Text of the [g]-th capture group (counted from 1 by opening
    parenthesis) of a match given by its per-atom texts.  [depth] is
    [None] before the group opens and [Some d] inside it, under [d]
    further open parentheses. *)
Fixpoint group_from (pat : list atom) (segs : list str) (g : nat)
    (depth : option nat) : str :=
  match pat, segs with
  | a :: pat', seg :: segs' =>
      match depth with
      | None =>
          match a with
          | Open =>
              match g with
              | 0 => []
              | 1 => group_from pat' segs' 0 (Some 0)
              | S g' => group_from pat' segs' g' None
              end
          | _ => group_from pat' segs' g None
          end
      | Some d =>
          match a with
          | Open => group_from pat' segs' g (Some (S d))
          | Close =>
              match d with
              | 0 => []
              | S d' => group_from pat' segs' g (Some d')
              end
          | _ => seg ++ group_from pat' segs' g (Some d)
          end
      end
  | _, _ => []
  end.

Definition group (pat : list atom) (segs : list str) (g : nat) : str :=
  group_from pat segs g None.

(** What a left-to-right scan of the subject meets: a character outside
    every match, or a match. *)
Inductive piece : Type :=
| Lit (c : ascii)
| Hit (segs : list str).

(** The scan shared by [re.findall] and [re.sub]: try the pattern at the
    current position; after a match go on where it ended (after an empty
    match, one character further); after a failure move one character.
    One unit of fuel is spent per position tried. *)
Fixpoint scan (fuel : nat) (pat : list atom) (prev : option ascii)
    (s : str) : option (list piece) :=
  match fuel with
  | 0 => None
  | S fuel' =>
      match match_here pat prev s with
      | Some (segs, rest) =>
          match concat segs with
          | [] =>
              match s with
              | [] => Some [Hit segs]
              | c :: s' =>
                  ps <- scan fuel' pat (Some c) s' ;;
                  Some (Hit segs :: Lit c :: ps)
              end
          | m =>
              ps <- scan fuel' pat (before prev m) rest ;;
              Some (Hit segs :: ps)
          end
      | None =>
          match s with
          | [] => Some []
          | c :: s' =>
              ps <- scan fuel' pat (Some c) s' ;;
              Some (Lit c :: ps)
          end
      end
  end.

Definition hits (ps : list piece) : list (list str) :=
  flat_map (fun p => match p with Hit segs => [segs] | Lit _ => [] end) ps.

(** [re.findall(pat, s, flags=re.MULTILINE)] for a pattern with two
    groups: the list of pairs (group 1, group 2) of the successive
    matches. *)
Definition findall (pat : list atom) (s : str) : option (list (str * str)) :=
  ps <- scan (S (length s)) pat None s ;;
  Some (map (fun segs => (group pat segs 1, group pat segs 2)) (hits ps)).

(** [re.sub(pat, repl, s)] for a replacement without group references. *)
Definition sub (pat : list atom) (repl : str) (s : str) : option str :=
  ps <- scan (S (length s)) pat None s ;;
  Some (flat_map (fun p => match p with Hit _ => repl | Lit c => [c] end) ps).

End Re.

(** ** toc.py *)

(** The class made of "#" alone. *)
Definition is_hash (c : ascii) : bool := Ascii.eqb "#"%char c.

(** The pattern of line 5, atom by atom:  ^ ( #+ \s+ ( .* ) ) $  *)
Definition heading_re : list Re.atom :=
  [Re.Bol; Re.Open; Re.Plus is_hash; Re.Plus isspace;
   Re.Open; Re.Star Re.dot; Re.Close; Re.Close; Re.Eol].

(** The pattern of line 17:  [^\w\s-]  *)
Definition strip_re : list Re.atom :=
  [Re.Cls (fun c => negb (Re.word c || isspace c || Ascii.eqb c "-"%char))].

(** The pattern of line 18:  \s+  *)
Definition space_re : list Re.atom := [Re.Plus isspace].

(** An element of [headings]: the pair (group 1, group 2) of one match,
    so [fst h] is [heading[0]] and [snd h] is [heading[1]]. *)
Definition heading : Type := str * str.

(** [heading[0].count('#')] *)
Definition level (h : heading) : nat := count "#"%char (fst h).

(** Lines 17-18: the link-friendly version of the heading. *)
Definition link_text (text : str) : option str :=
  t <- Re.sub strip_re [] (lower text) ;;
  Re.sub space_re (L "-") t.

(** The variables the loop changes: [toc], and what [print] has written
    (one record per call: the level and the heading). *)
Record state : Type := mkState {
  toc : str;
  stdout : list (nat * heading)
}.

(** The body of [for heading in headings]. *)
Definition loop_body (st : state) (h : heading) : option state :=
  let st := mkState (toc st) (stdout st ++ [(level h, h)]) in
  if (1 <? level h) && negb (Str.eqb (snd h) (L "Table of Contents")) then
    let indentation := mul (L "  ") (level h - 1) in
    slug <- link_text (snd h) ;;
    Some (mkState
            (toc st ++ indentation ++ L "- [" ++ snd h ++ L "](#" ++ slug
               ++ L ")" ++ nl)
            (stdout st))
  else Some st.

Fixpoint loop (st : state) (headings : list heading) : option state :=
  match headings with
  | [] => Some st
  | h :: rest => st' <- loop_body st h ;; loop st' rest
  end.

(** Lines 5-21: the state after the loop. *)
Definition build_toc (markdown_content : str) : option state :=
  headings <- Re.findall heading_re markdown_content ;;
  loop (mkState (L "## Table of Contents" ++ nl) []) headings.

(** Line 23: the lines of the TOC block. *)
Definition toc_lines (markdown_content : str) : option (list str) :=
  st <- build_toc markdown_content ;;
  Some (splitlines (toc st)).

(** The whole function: its return value. *)
Definition generate_table_of_contents (markdown_content : str) : option str :=
  toc <- toc_lines markdown_content ;;
  let lines := splitlines markdown_content in
  Some (join nl (firstn 1 lines ++ toc ++ skipn 1 lines)).

(** ** Definitions used to state and prove the properties *)

(** The 256 characters. *)
Definition all_ascii : list ascii := map ascii_of_nat (seq 0 256).

(** The characters that the substitution of line 17 leaves in place:
    letters, digits, the underscore, whitespace and the hyphen. *)
Definition kept (c : ascii) : bool :=
  isalpha c || isnumeric c || Ascii.eqb c "_"%char || isspace c
  || Ascii.eqb c "-"%char.

(** Every run of characters of the class [p] replaced by [repl];
    [in_run] tells that the previous character was already of the class. *)
Fixpoint collapse (p : ascii -> bool) (repl : str) (in_run : bool) (s : str)
    : str :=
  match s with
  | [] => []
  | c :: s' =>
      if p c then (if in_run then [] else repl) ++ collapse p repl true s'
      else c :: collapse p repl false s'
  end.

(** The slug without the scan: lowercase, keep the characters of [kept],
    then turn each run of whitespace into one hyphen. *)
Definition slug_of (text : str) : str :=
  collapse isspace (L "-") false (filter kept (lower text)).

(** What a match of the heading pattern consists of, read off the text at
    the position: the longest run of "#", then the longest run of
    whitespace, then everything up to the next "\n". *)
Definition heading_at (prev : option ascii) (s : str) : option Re.result :=
  let h := Re.run is_hash s in
  let s1 := skipn h s in
  let w := Re.run isspace s1 in
  let s2 := skipn w s1 in
  let t := Re.run Re.dot s2 in
  if Re.at_bol prev && (0 <? h) && (0 <? w)
  then Some ([[]; []; firstn h s; firstn w s1; []; firstn t s2; []; []; []],
             skipn t s2)
  else None.

(** A text without any line boundary. *)
Definition no_linebreak (line : str) : Prop :=
  Forall (fun c => is_linebreak c = false) line.

(** A sequence of lines whose last one is not empty. *)
Definition ends_nonempty (lines : list str) : Prop :=
  exists pre l, lines = pre ++ [l] /\ l <> [].

Definition table_of_contents : str := L "Table of Contents".

(** The condition of line 13. *)
Definition qualifies (h : heading) : bool :=
  (1 <? level h) && negb (Str.eqb (snd h) table_of_contents).

(** The line added by line 21, with its "\n". *)
Definition entry (h : heading) : str :=
  mul (L "  ") (level h - 1) ++ L "- [" ++ snd h ++ L "](#" ++ slug_of (snd h)
    ++ L ")" ++ nl.

(** The characters a slug is made of: kept by line 17, not whitespace,
    and unchanged by [lower]. *)
Definition slug_char (c : ascii) : bool :=
  kept c && negb (isspace c) && Ascii.eqb (lower_char c) c.

Definition starts_with_space (t : str) : bool :=
  match t with
  | c :: _ => isspace c
  | [] => false
  end.

Definition ends_with_space (t : str) : bool :=
  match rev t with
  | c :: _ => isspace c
  | [] => false
  end.

(** [t == t.strip()] *)
Definition trimmed (t : str) : bool :=
  negb (starts_with_space t) && negb (ends_with_space t).

(** Some "#" of the text is directly followed by a whitespace character.
    Where this fails, no "#" run of the text can be the start of a
    heading. *)
Fixpoint hash_before_space (s : str) : bool :=
  match s with
  | c :: s' =>
      match s' with
      | d :: _ => (is_hash c && isspace d) || hash_before_space s'
      | [] => false
      end
  | [] => false
  end.

(** Documents used as examples. *)
Definition example_doc : str :=
  L "# Title" ++ nl ++ L "## A" ++ nl ++ L "### B" ++ nl
    ++ L "## Table of Contents" ++ nl.

Definition define_guard_doc : str :=
  L "# Guide" ++ nl ++ L "## The #define Guard" ++ nl.

Definition trailing_space_doc : str := L "# T" ++ nl ++ L "## A " ++ nl.

Definition blank_end_doc : str := L "# T" ++ nl ++ nl.

Definition plain_doc : str := L "Title" ++ nl ++ L "body text".

Definition malformed_doc : str := L "#foo" ++ nl ++ L "#bar".

(** The slug as the description words it: letters, digits, whitespace and
    the hyphen are kept. *)
Definition described_kept (c : ascii) : bool :=
  isalpha c || isnumeric c || isspace c || Ascii.eqb c "-"%char.

Definition slug_as_described (text : str) : str :=
  collapse isspace (L "-") false (filter described_kept (lower text)).

(** "No letter, digit, underscore or whitespace character". *)
Definition symbols_as_described (text : str) : bool :=
  forallb (fun c => negb (isalpha c || isnumeric c || Ascii.eqb c "_"%char
                          || isspace c)) text.

(** ** Further definitions: documents given line by line *)

(** A line of a document that is laid out as Markdown expects: either a
    line that is no heading, or a heading line made of [k] "#", the
    blanks [ws] and the title [text]. *)
Inductive line : Type :=
| PlainLine (t : str)
| HeadingLine (k : nat) (ws : str) (text : str).

Definition render (l : line) : str :=
  match l with
  | PlainLine t => t
  | HeadingLine k ws text => repeat "#"%char k ++ ws ++ text
  end.

(** The text of a line cannot be taken for the start of a heading: it
    does not begin with "#", or its run of "#" is followed, on the line,
    by a character that is not whitespace. *)
Definition no_heading_start (t : str) : bool :=
  match Re.run is_hash t with
  | 0 => true
  | S _ =>
      match skipn (Re.run is_hash t) t with
      | c :: _ => negb (isspace c)
      | [] => false
      end
  end.

Definition well_formed (l : line) : Prop :=
  match l with
  | PlainLine t =>
      no_heading_start t = true /\ Forall (fun c => Re.dot c = true) t
  | HeadingLine k ws text =>
      1 <= k /\
      ws <> [] /\ Forall (fun c => isspace c = true) ws /\
      Forall (fun c => Re.dot c = true) ws /\
      text <> [] /\ starts_with_space text = false /\
      Forall (fun c => Re.dot c = true) text
  end.

(** The pair that [re.findall] is expected to give for a line. *)
Definition heading_of (l : line) : list heading :=
  match l with
  | PlainLine _ => []
  | HeadingLine k ws text => [(render l, text)]
  end.

(** The lines put together with "\n" between them. *)
Definition document (lines : list line) : str := join nl (map render lines).

(** The line added by line 21, without its "\n". *)
Definition entry_line (h : heading) : str :=
  mul (L "  ") (level h - 1) ++ L "- [" ++ snd h ++ L "](#" ++ slug_of (snd h)
    ++ L ")".

(** The only line boundary of the text is "\n". *)
Definition only_newlines (s : str) : Prop :=
  Forall (fun c => is_linebreak c = true -> c = "010"%char) s.

(** ** The statements after the function (lines 29-35) *)

(** The files, by name, each with its text.  Only the characters of a
    file are modelled, not its encoding. *)
Definition files : Type := string -> option str.

(** What [fp.read()] does to the line ends of a file opened in text mode
    ("r", no [newline] argument): "\r\n" and "\r" are given as "\n". *)
Fixpoint universal_newlines (s : str) : str :=
  match s with
  | [] => []
  | c :: s' =>
      if Ascii.eqb c "013"%char then
        "010"%char ::
        match s' with
        | d :: s'' =>
            if Ascii.eqb d "010"%char then universal_newlines s''
            else universal_newlines s'
        | [] => []
        end
      else c :: universal_newlines s'
  end.

(** What [fp.write(s)] does in text mode ("w", no [newline] argument):
    every "\n" is written as the line separator of the platform,
    [os.linesep]. *)
Definition write_newlines (linesep : str) (s : str) : str :=
  flat_map (fun c => if Ascii.eqb c "010"%char then linesep else [c]) s.

(** Reading a whole file in text mode. *)
Definition read_text (fs : files) (name : string) : option str :=
  option_map universal_newlines (fs name).

(** The exceptions that the two [open] statements, the read and the
    write can raise. *)
Inductive exn : Type :=
| FileNotFoundError
| PermissionError
| IsADirectoryError
| UnicodeDecodeError
| UnicodeEncodeError
| OSError.

(** What the platform answers beyond the texts of the files:
    [read_fault name] is the exception, if there is one, raised when
    [name] is opened for reading and read (no permission, a directory,
    bytes that do not decode, an I/O error); [write_fault name text] is
    the one raised when [name] is opened for writing and [text] is
    written (no permission, a directory, characters that do not encode,
    a full disk). *)
Record faults : Type := mkFaults {
  read_fault : string -> option exn;
  write_fault : string -> str -> option exn
}.

(** A platform on which nothing goes wrong. *)
Definition no_faults : faults := mkFaults (fun _ => None) (fun _ _ => None).

(** How a run of the script ends: it finishes, with the files as they
    then are and what was printed, or it raises, with what was printed
    before.  [OutOfFuel] stands for a scan that does not finish. *)
Inductive outcome : Type :=
| Finished (fs : files) (printed : list (nat * heading))
| Raised (e : exn) (printed : list (nat * heading))
| OutOfFuel.

(** Lines 29-35: read README.md.notoc, generate, write README.md. *)
Definition main (io : faults) (linesep : str) (fs : files) : outcome :=
  match read_fault io "README.md.notoc"%string with
  | Some e => Raised e []
  | None =>
      match read_text fs "README.md.notoc"%string with
      | None => Raised FileNotFoundError []
      | Some readme =>
          match build_toc readme, generate_table_of_contents readme with
          | Some st, Some readme' =>
              match write_fault io "README.md"%string readme' with
              | Some e => Raised e (stdout st)
              | None =>
                  Finished
                    (fun name =>
                       if String.eqb name "README.md"%string
                       then Some (write_newlines linesep readme')
                       else fs name)
                    (stdout st)
              end
          | _, _ => OutOfFuel
          end
      end
  end.

(** An example of files: the input only. *)
Definition example_files : files :=
  fun name =>
    if String.eqb name "README.md.notoc"%string
    then Some (L "# Title" ++ ["013"%char] ++ nl ++ L "## A" ++ ["013"%char]
                 ++ nl ++ L "text")
    else None.


(** ** Further definitions: where a heading can start *)

(** The text begins with a run of "#" directly followed by a whitespace
    character; the "\n" that ends a line is one. *)
Definition hash_then_space (s : str) : bool :=
  (0 <? Re.run is_hash s) && starts_with_space (skipn (Re.run is_hash s) s).

(** Some line of the text begins that way.  [bol] tells whether the text
    itself begins a line. *)
Fixpoint heading_start_from (bol : bool) (s : str) : bool :=
  match s with
  | [] => false
  | c :: s' =>
      (bol && hash_then_space s)
      || heading_start_from (Ascii.eqb c "010"%char) s'
  end.

Definition heading_start (doc : str) : bool := heading_start_from true doc.

(** A line, taken alone, matches the heading pattern. *)
Definition line_matches (l : str) : bool :=
  match Re.findall heading_re l with
  | Some (_ :: _) => true
  | _ => false
  end.

(** Two more documents used as examples. *)
Definition cross_line_doc : str := L "##" ++ nl ++ L "foo".

Definition trailing_newline_doc : str := L "Title" ++ nl ++ L "body" ++ nl.

(** * Properties *)

(** ** The library functions on small inputs *)

Example splitlines_mixed_terminators :
  splitlines (L "ab c" ++ nl ++ nl ++ L "de fg" ++ ["013"%char] ++ L "kl"
                ++ ["013"%char] ++ nl)
  = [L "ab c"; []; L "de fg"; L "kl"].
Proof. vm_compute. reflexivity. Qed.

Example splitlines_empty_and_final_newline :
  splitlines [] = [] /\ splitlines (L "One line" ++ nl) = [L "One line"] /\
  split_nl (L "Two lines" ++ nl) = [L "Two lines"; []].
Proof. split; [|split]; vm_compute; reflexivity. Qed.

Example join_three : join nl [L "a"; []; L "b"] = L "a" ++ nl ++ nl ++ L "b".
Proof. vm_compute. reflexivity. Qed.

(** [\s+] is free to run over line ends: a "#" alone on its line, followed
    by the next line, is one match. *)
Example findall_over_line_end :
  Re.findall heading_re (L "#" ++ nl ++ L "# a")
  = Some [(L "#" ++ nl ++ L "# a", L "# a")].
Proof. vm_compute. reflexivity. Qed.

(** A "#" in the middle of a line does not start a match. *)
Example findall_needs_line_start :
  Re.findall heading_re (L "x ## A" ++ nl ++ L " ## B" ++ nl ++ L "## C")
  = Some [(L "## C", L "C")].
Proof. vm_compute. reflexivity. Qed.

Example sub_examples :
  Re.sub space_re (L "-") (L "a  b" ++ nl ++ L "c ") = Some (L "a-b-c-") /\
  Re.sub strip_re [] (L "a_b-c!d (e)") = Some (L "a_b-cd e").
Proof. split; vm_compute; reflexivity. Qed.

(** ** Facts about single characters *)

Lemma all_ascii_complete (c : ascii) : In c all_ascii.
Proof.
  unfold all_ascii. rewrite <- (ascii_nat_embedding c).
  apply in_map, in_seq. pose proof (nat_ascii_bounded c). lia.
Qed.

(** A boolean property of characters holds of all of them as soon as it
    evaluates to [true] on the 256 of them. *)
Lemma ascii_forall (P : ascii -> bool) :
  forallb P all_ascii = true -> forall c, P c = true.
Proof.
  intros H c. rewrite forallb_forall in H. apply H, all_ascii_complete.
Qed.

Ltac by_all_chars P := apply (ascii_forall P); vm_compute; reflexivity.

Lemma kept_lower_char c : kept (lower_char c) = kept c.
Proof.
  apply eqb_prop. revert c.
  by_all_chars (fun c => Bool.eqb (kept (lower_char c)) (kept c)).
Qed.

Lemma isspace_not_hash c : isspace c = true -> is_hash c = false.
Proof.
  assert (A : forall c, (negb (isspace c) || negb (is_hash c)) = true)
    by by_all_chars (fun c => negb (isspace c) || negb (is_hash c)).
  intros H. specialize (A c). rewrite H in A. now apply negb_true_iff.
Qed.

Lemma lowered_kept_is_slug_char c :
  kept (lower_char c) = true -> isspace (lower_char c) = false ->
  slug_char (lower_char c) = true.
Proof.
  assert (A : forall c, (negb (kept (lower_char c)) || isspace (lower_char c)
                         || slug_char (lower_char c)) = true)
    by by_all_chars (fun c => negb (kept (lower_char c))
                              || isspace (lower_char c)
                              || slug_char (lower_char c)).
  intros K S. specialize (A c). rewrite K, S in A. exact A.
Qed.

Lemma newline_is_linebreak c : Re.dot c = false -> is_linebreak c = true.
Proof.
  unfold Re.dot. intros H. apply negb_false_iff, Ascii.eqb_eq in H.
  subst c. reflexivity.
Qed.

Lemma not_linebreak_dot c : is_linebreak c = false -> Re.dot c = true.
Proof.
  intros H. destruct (Re.dot c) eqn:E; [reflexivity|].
  apply newline_is_linebreak in E. congruence.
Qed.

(** ** The matcher *)

Section Runs.

Variable p : ascii -> bool.

Lemma run_firstn s : Forall (fun c => p c = true) (firstn (Re.run p s) s).
Proof.
  induction s as [|c s IH]; simpl; [constructor|].
  destruct (p c) eqn:E; simpl; [|constructor].
  constructor; assumption.
Qed.

(** The run is the longest one: what follows it does not start with a
    character of the class. *)
Lemma run_skipn s : Re.run p (skipn (Re.run p s) s) = 0.
Proof.
  induction s as [|c s IH]; simpl; [reflexivity|].
  destruct (p c) eqn:E; simpl; [assumption|]. now rewrite E.
Qed.

Lemma run_zero_head c s : Re.run p (c :: s) = 0 -> p c = false.
Proof. simpl. destruct (p c); [discriminate|reflexivity]. Qed.

Lemma run_app_all s t :
  Forall (fun c => p c = true) s -> Re.run p (s ++ t) = length s + Re.run p t.
Proof.
  induction 1 as [|c s Hc _ IH]; simpl; [reflexivity|]. now rewrite Hc, IH.
Qed.

Lemma run_pos_firstn_nonempty s : Re.run p s <> 0 -> firstn (Re.run p s) s <> [].
Proof.
  destruct s as [|c s]; simpl; [congruence|].
  destruct (p c); [discriminate|congruence].
Qed.

Lemma skipn_inside_run : forall m s,
  m < Re.run p s -> exists c s', skipn m s = c :: s' /\ p c = true.
Proof.
  induction m as [|m IH]; intros [|c s]; simpl; try lia.
  - destruct (p c) eqn:E; [eauto|lia].
  - destruct (p c) eqn:E; [|lia]. intros H. apply IH. lia.
Qed.

End Runs.

(** Unfolding of one step of the backtracking. *)
Lemma greedy_eq k min n prev s :
  Re.greedy k min n prev s =
  if n <? min then None
  else match k (Re.before prev (firstn n s)) (skipn n s) with
       | Some (segs, rest) => Some (firstn n s :: segs, rest)
       | None => match n with
                 | 0 => None
                 | S n' => Re.greedy k min n' prev s
                 end
       end.
Proof. destruct n; reflexivity. Qed.

(** When the rest of the pattern fails after every admissible length, the
    repetition fails. *)
Lemma greedy_none k min n prev s :
  (forall m, m <= n -> k (Re.before prev (firstn m s)) (skipn m s) = None) ->
  Re.greedy k min n prev s = None.
Proof.
  induction n as [|n IH]; intros H; rewrite greedy_eq.
  - destruct (0 <? min); [reflexivity|]. now rewrite (H 0).
  - destruct (S n <? min); [reflexivity|]. rewrite (H (S n)) by lia.
    apply IH. intros m Hm. apply H. lia.
Qed.

(** A match reads a prefix of the subject: the texts of the atoms, in
    order, followed by the rest. *)
Lemma greedy_app k min n prev s segs rest :
  (forall prev' s' segs' rest',
      k prev' s' = Some (segs', rest') -> s' = concat segs' ++ rest') ->
  Re.greedy k min n prev s = Some (segs, rest) ->
  s = concat segs ++ rest.
Proof.
  intros Hk. revert segs rest.
  induction n as [|n IH]; intros segs rest; rewrite greedy_eq.
  - destruct (0 <? min); [discriminate|].
    destruct (k _ _) as [[segs' rest']|] eqn:E; [|discriminate].
    intros [= <- <-]. apply Hk in E. simpl in *. exact E.
  - destruct (S n <? min); [discriminate|].
    destruct (k _ _) as [[segs' rest']|] eqn:E; [|apply IH].
    apply Hk in E. pose proof (firstn_skipn (S n) s) as F.
    remember (firstn (S n) s) as f. intros [= <- <-].
    simpl. rewrite <- app_assoc, <- E. now symmetry.
Qed.

Lemma push_app seg r segs rest s :
  Re.push seg r = Some (segs, rest) ->
  (forall segs' rest', r = Some (segs', rest') -> s = concat segs' ++ rest') ->
  seg ++ s = concat segs ++ rest.
Proof.
  destruct r as [[segs' rest']|]; simpl; [|discriminate].
  intros [= <- <-] H. simpl. rewrite <- app_assoc. f_equal. now apply H.
Qed.

Lemma match_here_app pat : forall prev s segs rest,
  Re.match_here pat prev s = Some (segs, rest) -> s = concat segs ++ rest.
Proof.
  induction pat as [|a pat IH]; intros prev s segs rest.
  - simpl. now intros [= <- <-].
  - destruct a; simpl.
    + destruct (Re.at_bol prev); [|discriminate]. intros H.
      apply (push_app [] _ _ _ s) in H; [exact H|]. intros ? ?. apply IH.
    + destruct (Re.at_eol s); [|discriminate]. intros H.
      apply (push_app [] _ _ _ s) in H; [exact H|]. intros ? ?. apply IH.
    + destruct s as [|c s]; [discriminate|].
      destruct (p c); [|discriminate]. intros H.
      apply (push_app [c] _ _ _ s) in H; [exact H|]. intros ? ?. apply IH.
    + apply greedy_app. intros ? ? ? ?. apply IH.
    + apply greedy_app. intros ? ? ? ?. apply IH.
    + intros H. apply (push_app [] _ _ _ s) in H; [exact H|].
      intros ? ?. apply IH.
    + intros H. apply (push_app [] _ _ _ s) in H; [exact H|].
      intros ? ?. apply IH.
Qed.

(** ** The scan never runs out of fuel *)

Lemma scan_total pat : forall fuel prev s,
  length s < fuel -> exists ps, Re.scan fuel pat prev s = Some ps.
Proof.
  induction fuel as [|fuel IH]; intros prev s Hlen; [lia|].
  simpl. destruct (Re.match_here pat prev s) as [[segs rest]|] eqn:E.
  - destruct (concat segs) as [|c m] eqn:C.
    + destruct s as [|d s]; [eauto|].
      destruct (IH (Some d) s) as [ps ->]; [simpl in Hlen; lia|]. eauto.
    + apply match_here_app in E. rewrite C in E.
      destruct (IH (Re.before prev (c :: m)) rest) as [ps ->]; [|eauto].
      rewrite E in Hlen. simpl in Hlen. rewrite length_app in Hlen. lia.
  - destruct s as [|d s]; [eauto|].
    destruct (IH (Some d) s) as [ps ->]; [simpl in Hlen; lia|]. eauto.
Qed.

(** Every match reported by the scan is a match of the pattern at some
    position. *)
Lemma scan_hits pat : forall fuel prev s ps segs,
  Re.scan fuel pat prev s = Some ps ->
  In segs (Re.hits ps) ->
  exists prev' s' rest, Re.match_here pat prev' s' = Some (segs, rest).
Proof.
  induction fuel as [|fuel IH]; intros prev s ps segs; [discriminate|].
  simpl. destruct (Re.match_here pat prev s) as [[segs0 rest]|] eqn:E.
  - destruct (concat segs0) as [|c m] eqn:C.
    + destruct s as [|d s].
      * intros [= <-]. simpl. intros [<-|[]]. eauto.
      * destruct (Re.scan fuel pat (Some d) s) as [ps'|] eqn:E'; [|discriminate].
        intros [= <-]. simpl. intros [<-|H]; [eauto|]. eapply IH; eauto.
    + destruct (Re.scan fuel pat _ rest) as [ps'|] eqn:E'; [|discriminate].
      intros [= <-]. simpl. intros [<-|H]; [eauto|]. eapply IH; eauto.
  - destruct s as [|d s].
    + intros [= <-]. intros [].
    + destruct (Re.scan fuel pat (Some d) s) as [ps'|] eqn:E'; [|discriminate].
      intros [= <-]. simpl. intros H. eapply IH; eauto.
Qed.

(** ** The two substitutions of lines 17-18 *)

Lemma scan_strip : forall fuel prev s,
  length s < fuel ->
  exists ps, Re.scan fuel strip_re prev s = Some ps /\
    flat_map (fun p => match p with Re.Hit _ => [] | Re.Lit c => [c] end) ps
    = filter kept s.
Proof.
  induction fuel as [|fuel IH]; intros prev s Hlen; [lia|].
  destruct s as [|c s].
  - exists []. split; reflexivity.
  - destruct (IH (Some c) s) as (ps & E & F); [simpl in Hlen; lia|].
    cbn [Re.scan strip_re Re.match_here].
    change (negb (Re.word c || isspace c || Ascii.eqb c "-"%char))
      with (negb (kept c)).
    destruct (kept c) eqn:K; cbn -[Re.scan].
    + fold strip_re. rewrite E. exists (Re.Lit c :: ps). split; [reflexivity|].
      cbn. now rewrite K, F.
    + fold strip_re. rewrite E. exists (Re.Hit [[c]] :: ps). split; [reflexivity|].
      cbn. now rewrite K, F.
Qed.

Lemma sub_strip s : Re.sub strip_re [] s = Some (filter kept s).
Proof.
  unfold Re.sub. destruct (scan_strip (S (length s)) None s) as (ps & -> & F); [lia|].
  now rewrite F.
Qed.

Lemma match_here_plus p prev s :
  Re.match_here [Re.Plus p] prev s =
  if Re.run p s =? 0 then None
  else Some ([firstn (Re.run p s) s], skipn (Re.run p s) s).
Proof.
  cbn [Re.match_here]. rewrite greedy_eq.
  destruct (Re.run p s) as [|n]; reflexivity.
Qed.

Lemma collapse_in_run p repl s :
  collapse p repl true s = collapse p repl false (skipn (Re.run p s) s).
Proof.
  induction s as [|c s IH]; [reflexivity|].
  simpl. destruct (p c) eqn:E; simpl; [exact IH|]. now rewrite E.
Qed.

Lemma scan_space p repl : forall fuel prev s,
  length s < fuel ->
  exists ps, Re.scan fuel [Re.Plus p] prev s = Some ps /\
    flat_map (fun q => match q with Re.Hit _ => repl | Re.Lit c => [c] end) ps
    = collapse p repl false s.
Proof.
  induction fuel as [|fuel IH]; intros prev s Hlen; [lia|].
  cbn [Re.scan]. rewrite match_here_plus.
  destruct s as [|c s]; [exists []; split; reflexivity|].
  cbn [Re.run]. destruct (p c) eqn:E.
  - cbn [Nat.eqb firstn skipn concat app].
    edestruct (IH (Re.before prev (c :: firstn (Re.run p s) s ++ []))
                 (skipn (Re.run p s) s)) as (ps & -> & F).
    { pose proof (length_skipn (Re.run p s) s). simpl in Hlen. lia. }
    eexists. split; [reflexivity|].
    cbn [flat_map collapse]. rewrite E, F, collapse_in_run. reflexivity.
  - cbn [Nat.eqb]. destruct (IH (Some c) s) as (ps & -> & F); [simpl in Hlen; lia|].
    eexists. split; [reflexivity|].
    cbn [flat_map collapse app]. now rewrite E, F.
Qed.

Lemma sub_space repl s :
  Re.sub space_re repl s = Some (collapse isspace repl false s).
Proof.
  unfold Re.sub, space_re.
  destruct (scan_space isspace repl (S (length s)) None s) as (ps & -> & F); [lia|].
  now rewrite F.
Qed.

Lemma link_text_slug_of text : link_text text = Some (slug_of text).
Proof. unfold link_text. rewrite sub_strip. apply sub_space. Qed.

(** ** The heading pattern *)

Lemma at_eol_after_dot s : Re.at_eol (skipn (Re.run Re.dot s) s) = true.
Proof.
  induction s as [|c s IH]; [reflexivity|].
  simpl. destruct (Re.dot c) eqn:E; simpl; [exact IH|].
  unfold Re.dot in E. now apply negb_false_iff in E.
Qed.

Lemma match_text_tail prev s :
  Re.match_here [Re.Star Re.dot; Re.Close; Re.Close; Re.Eol] prev s =
  Some ([firstn (Re.run Re.dot s) s; []; []; []], skipn (Re.run Re.dot s) s).
Proof.
  change (Re.match_here [Re.Star Re.dot; Re.Close; Re.Close; Re.Eol] prev s)
    with (Re.greedy (Re.match_here [Re.Close; Re.Close; Re.Eol]) 0
            (Re.run Re.dot s) prev s).
  rewrite greedy_eq. cbn [Nat.ltb Nat.leb Re.match_here].
  now rewrite at_eol_after_dot.
Qed.

Lemma match_space_tail prev s :
  Re.match_here
    [Re.Plus isspace; Re.Open; Re.Star Re.dot; Re.Close; Re.Close; Re.Eol]
    prev s =
  let w := Re.run isspace s in
  let s2 := skipn w s in
  let t := Re.run Re.dot s2 in
  if 0 <? w
  then Some ([firstn w s; []; firstn t s2; []; []; []], skipn t s2)
  else None.
Proof.
  change (Re.match_here
            [Re.Plus isspace; Re.Open; Re.Star Re.dot; Re.Close; Re.Close; Re.Eol]
            prev s)
    with (Re.greedy
            (fun prev' s' =>
               Re.push []
                 (Re.match_here [Re.Star Re.dot; Re.Close; Re.Close; Re.Eol]
                    prev' s'))
            1 (Re.run isspace s) prev s).
  rewrite greedy_eq. cbv zeta.
  destruct (Re.run isspace s) as [|n]; [reflexivity|].
  rewrite match_text_tail. reflexivity.
Qed.

(** The backtracking matcher agrees with the direct reading: giving back
    a "#" never helps, because what then follows is a "#" and not
    whitespace. *)
Lemma match_heading prev s :
  Re.match_here heading_re prev s = heading_at prev s.
Proof.
  unfold heading_at. cbv zeta.
  change (Re.match_here heading_re prev s)
    with (if Re.at_bol prev
          then Re.push []
                 (Re.push []
                    (Re.greedy
                       (Re.match_here
                          [Re.Plus isspace; Re.Open; Re.Star Re.dot;
                           Re.Close; Re.Close; Re.Eol])
                       1 (Re.run is_hash s) prev s))
          else None).
  destruct (Re.at_bol prev); [|reflexivity]. cbn [andb].
  rewrite greedy_eq.
  destruct (Re.run is_hash s) as [|n] eqn:Hn; [reflexivity|].
  cbn [Nat.ltb Nat.leb]. rewrite match_space_tail. cbv zeta.
  destruct (Re.run isspace (skipn (S n) s)) as [|w] eqn:Hw; [|reflexivity].
  cbn [Nat.ltb Nat.leb]. rewrite greedy_none; [reflexivity|].
  intros m Hm. rewrite match_space_tail. cbv zeta.
  destruct (skipn_inside_run is_hash m s) as (c & s' & -> & Hc); [lia|].
  cbn [Re.run]. destruct (isspace c) eqn:Hs; [|reflexivity].
  apply isspace_not_hash in Hs. congruence.
Qed.

(** ** Lines: [splitlines], [join] and [split] *)

(** Induction that also gives the property of the text after the next
    character, as [splitlines] needs when it reads "\r\n". *)
Lemma str_ind2 (P : list ascii -> Prop) :
  P [] ->
  (forall c, P [c]) ->
  (forall c d s, P s -> P (d :: s) -> P (c :: d :: s)) ->
  forall s : list ascii, P s.
Proof.
  intros H0 H1 H2 s.
  assert (A : P s /\ forall c, P (c :: s)).
  { induction s as [|d s [IH1 IH2]]; [split; [exact H0|exact H1]|].
    split; [apply IH2|]. intros c. apply H2; [exact IH1|apply IH2]. }
  apply A.
Qed.

Lemma splitlines_cons_plain c s :
  is_linebreak c = false ->
  splitlines (c :: s) =
  match splitlines s with
  | [] => [[c]]
  | line :: lines => (c :: line) :: lines
  end.
Proof. intros H. simpl. now rewrite H. Qed.

Lemma splitlines_no_linebreak s : Forall no_linebreak (splitlines s).
Proof.
  induction s as [|c|c d s IH1 IH2] using str_ind2.
  - constructor.
  - simpl. destruct (is_linebreak c) eqn:E; repeat constructor. exact E.
  - destruct (is_linebreak c) eqn:E.
    + change (splitlines (c :: d :: s)) with
        (if is_linebreak c then
           [] :: (if Ascii.eqb c "013"%char && Ascii.eqb d "010"%char
                  then splitlines s else splitlines (d :: s))
         else match splitlines (d :: s) with
              | [] => [[c]]
              | line :: lines => (c :: line) :: lines
              end).
      rewrite E. constructor; [constructor|].
      destruct (_ && _); assumption.
    + rewrite splitlines_cons_plain by exact E.
      destruct (splitlines (d :: s)) as [|line lines].
      * repeat constructor. exact E.
      * inversion IH2; subst. constructor; [|assumption].
        constructor; assumption.
Qed.

(** A line without line boundaries followed by "\n" is split off whole. *)
Lemma splitlines_line line rest :
  no_linebreak line ->
  splitlines (line ++ nl ++ rest) = line :: splitlines rest.
Proof.
  induction 1 as [|c line Hc _ IH].
  - destruct rest; reflexivity.
  - change ((c :: line) ++ nl ++ rest) with (c :: (line ++ nl ++ rest)).
    rewrite splitlines_cons_plain by exact Hc. now rewrite IH.
Qed.

Lemma splitlines_single line :
  no_linebreak line -> line <> [] -> splitlines line = [line].
Proof.
  induction 1 as [|c line Hc Hl IH]; [congruence|]. intros _.
  rewrite splitlines_cons_plain by exact Hc.
  destruct line as [|d line]; [reflexivity|].
  rewrite IH by discriminate. reflexivity.
Qed.

(** Text that ends with an ordinary character followed by "\n" has a
    non-empty last line. *)
Lemma splitlines_ends_nonempty c : is_linebreak c = false ->
  forall x, ends_nonempty (splitlines (x ++ [c] ++ nl)).
Proof.
  intros Hc x. induction x as [|e|e d x IH1 IH2] using str_ind2.
  - exists [], [c]. split; [|discriminate]. simpl. now rewrite Hc.
  - assert (B : ends_nonempty (splitlines ([c] ++ nl))).
    { exists [], [c]. split; [|discriminate]. simpl. now rewrite Hc. }
    destruct (is_linebreak e) eqn:E.
    + assert (N : Ascii.eqb c "010"%char = false).
      { destruct (Ascii.eqb c "010"%char) eqn:N; [|reflexivity].
        apply Ascii.eqb_eq in N. subst c. discriminate. }
      simpl. rewrite E, N, andb_false_r, Hc. simpl.
      exists [[]], [c]. split; [reflexivity|discriminate].
    + change ([e] ++ [c] ++ nl) with (e :: ([c] ++ nl)).
      rewrite splitlines_cons_plain by exact E.
      destruct B as (pre & l & -> & Hl).
      destruct pre as [|p pre]; simpl.
      * exists [], (e :: l). split; [reflexivity|discriminate].
      * exists ((e :: p) :: pre), l. split; [reflexivity|exact Hl].
  - destruct (is_linebreak e) eqn:E.
    + change (splitlines ((e :: d :: x) ++ [c] ++ nl)) with
        (if is_linebreak e then
           [] :: (if Ascii.eqb e "013"%char && Ascii.eqb d "010"%char
                  then splitlines (x ++ [c] ++ nl)
                  else splitlines ((d :: x) ++ [c] ++ nl))
         else match splitlines ((d :: x) ++ [c] ++ nl) with
              | [] => [[e]]
              | line :: lines => (e :: line) :: lines
              end).
      rewrite E.
      destruct (_ && _).
      * destruct IH1 as (pre & l & -> & Hl). exists ([] :: pre), l. now split.
      * destruct IH2 as (pre & l & -> & Hl). exists ([] :: pre), l. now split.
    + change ((e :: d :: x) ++ [c] ++ nl) with (e :: ((d :: x) ++ [c] ++ nl)).
      rewrite splitlines_cons_plain by exact E.
      destruct IH2 as (pre & l & -> & Hl).
      destruct pre as [|p pre]; simpl.
      * exists [], (e :: l). split; [reflexivity|discriminate].
      * exists ((e :: p) :: pre), l. split; [reflexivity|exact Hl].
Qed.

Lemma join_cons sep x y rest :
  join sep (x :: y :: rest) = x ++ sep ++ join sep (y :: rest).
Proof. reflexivity. Qed.

Lemma join_snoc sep : forall pre l,
  pre <> [] -> join sep (pre ++ [l]) = join sep pre ++ sep ++ l.
Proof.
  induction pre as [|x pre IH]; intros l H; [congruence|].
  destruct pre as [|y pre]; [reflexivity|].
  change ((x :: y :: pre) ++ [l]) with (x :: y :: (pre ++ [l])).
  rewrite !join_cons. change (y :: pre ++ [l]) with ((y :: pre) ++ [l]).
  rewrite IH by discriminate. now rewrite <- !app_assoc.
Qed.

Lemma no_linebreak_dot line : no_linebreak line -> Forall (fun c => Re.dot c = true) line.
Proof.
  apply Forall_impl. intros c. apply not_linebreak_dot.
Qed.

Lemma split_nl_plain line :
  Forall (fun c => Re.dot c = true) line -> split_nl line = [line].
Proof.
  induction 1 as [|c line Hc _ IH]; [reflexivity|].
  simpl. unfold Re.dot in Hc. apply negb_true_iff in Hc. now rewrite Hc, IH.
Qed.

Lemma split_nl_line line rest :
  Forall (fun c => Re.dot c = true) line ->
  split_nl (line ++ nl ++ rest) = line :: split_nl rest.
Proof.
  induction 1 as [|c line Hc _ IH]; [reflexivity|].
  simpl. unfold Re.dot in Hc. apply negb_true_iff in Hc.
  rewrite Hc. simpl in IH. now rewrite IH.
Qed.

(** [split] undoes [join] on pieces that contain no "\n". *)
Lemma split_nl_join parts :
  parts <> [] ->
  Forall no_linebreak parts ->
  split_nl (join nl parts) = parts.
Proof.
  intros Hne H. induction H as [|x parts Hx Hp IH]; [congruence|].
  destruct parts as [|y parts].
  - simpl. now apply split_nl_plain, no_linebreak_dot.
  - rewrite join_cons, split_nl_line by now apply no_linebreak_dot.
    rewrite IH by discriminate. reflexivity.
Qed.

(** [splitlines] undoes [join] too, provided the last piece is not empty. *)
Lemma splitlines_join parts :
  Forall no_linebreak parts ->
  ends_nonempty parts ->
  splitlines (join nl parts) = parts.
Proof.
  intros H. induction H as [|x parts Hx Hp IH]; intros (pre & l & E & Hl).
  - destruct pre; discriminate.
  - destruct parts as [|y parts].
    + destruct pre as [|? [|? ?]]; try discriminate. injection E as -> .
      simpl. now apply splitlines_single.
    + rewrite join_cons, splitlines_line by assumption.
      rewrite IH; [reflexivity|].
      destruct pre as [|p pre]; [discriminate|]. injection E as _ E.
      exists pre, l. now split.
Qed.

Lemma ends_with_newline_snoc s c :
  ends_with_newline (s ++ [c]) = Ascii.eqb c "010"%char.
Proof. unfold ends_with_newline. now rewrite rev_app_distr. Qed.

Lemma ends_with_newline_app s t :
  t <> [] -> ends_with_newline (s ++ t) = ends_with_newline t.
Proof.
  intros H. destruct (exists_last H) as (t' & c & ->).
  now rewrite app_assoc, !ends_with_newline_snoc.
Qed.

Lemma no_linebreak_not_ending l :
  no_linebreak l -> ends_with_newline l = false.
Proof.
  intros H. destruct l as [|c l] using rev_ind; [reflexivity|].
  rewrite ends_with_newline_snoc.
  apply Forall_app in H as [_ H]. inversion H as [|? ? Hc _]; subst.
  destruct (Ascii.eqb c "010"%char) eqn:E; [|reflexivity].
  apply Ascii.eqb_eq in E. subst c. discriminate.
Qed.

(** The joined text ends with "\n" exactly when the last piece is empty
    and is not the only one. *)
Lemma join_ends_with_newline pre l :
  no_linebreak l ->
  ends_with_newline (join nl (pre ++ [l])) = true <-> (l = [] /\ pre <> []).
Proof.
  intros Hl. destruct pre as [|x pre].
  - simpl. rewrite no_linebreak_not_ending by assumption.
    split; [discriminate|]. intros [_ H]. congruence.
  - rewrite join_snoc by discriminate.
    destruct l as [|c l].
    + rewrite app_nil_r, ends_with_newline_app by discriminate.
      split; [intros _; split; [reflexivity|discriminate]|reflexivity].
    + rewrite app_assoc, ends_with_newline_app by discriminate.
      rewrite no_linebreak_not_ending by assumption.
      split; [discriminate|]. intros [H _]. discriminate.
Qed.

(** ** The loop *)

Lemma str_eqb_eq s : forall t, Str.eqb s t = true <-> s = t.
Proof.
  induction s as [|c s IH]; intros [|d t]; simpl; try (split; congruence).
  rewrite andb_true_iff, Ascii.eqb_eq, IH. split; [intros [-> ->]|intros [= -> ->]]; auto.
Qed.

Lemma loop_body_eq st h :
  loop_body st h =
  Some (mkState (toc st ++ (if qualifies h then entry h else []))
                (stdout st ++ [(level h, h)])).
Proof.
  unfold loop_body, qualifies, table_of_contents.
  destruct (_ && _); cbn [toc stdout].
  - rewrite link_text_slug_of. reflexivity.
  - now rewrite app_nil_r.
Qed.

Lemma loop_eq : forall hs st,
  loop st hs =
  Some (mkState (toc st ++ concat (map entry (filter qualifies hs)))
                (stdout st ++ map (fun h => (level h, h)) hs)).
Proof.
  induction hs as [|h hs IH]; intros st.
  - simpl. rewrite !app_nil_r. now destruct st.
  - cbn [loop]. rewrite loop_body_eq, IH. cbn [toc stdout filter map].
    rewrite <- !app_assoc. destruct (qualifies h); reflexivity.
Qed.

(** The text of the TOC block ends with an ordinary character and "\n". *)
Lemma toc_text_end (es : list heading) :
  exists x c, is_linebreak c = false /\
    (L "## Table of Contents" ++ nl) ++ concat (map entry es) = x ++ [c] ++ nl.
Proof.
  destruct es as [|e es _] using rev_ind.
  - exists (L "## Table of Content"), "s"%char. split; vm_compute; reflexivity.
  - exists ((L "## Table of Contents" ++ nl) ++ concat (map entry es)
            ++ mul (L "  ") (level e - 1) ++ L "- [" ++ snd e ++ L "](#"
            ++ slug_of (snd e)), ")"%char.
    split; [vm_compute; reflexivity|].
    rewrite map_app, concat_app. cbn [map concat]. unfold entry at 2.
    change (L ")") with [")"%char].
    rewrite app_nil_r. repeat rewrite <- app_assoc. reflexivity.
Qed.

Lemma findall_total pat s : exists hs, Re.findall pat s = Some hs.
Proof.
  unfold Re.findall.
  destruct (scan_total pat (S (length s)) None s) as [ps ->]; [lia|]. eauto.
Qed.

Lemma toc_lines_total doc :
  exists toc, toc_lines doc = Some toc /\ Forall no_linebreak toc /\ ends_nonempty toc.
Proof.
  unfold toc_lines, build_toc.
  destruct (findall_total heading_re doc) as [hs ->].
  rewrite loop_eq. cbn [toc]. eexists. split; [reflexivity|].
  split; [apply splitlines_no_linebreak|].
  destruct (toc_text_end (filter qualifies hs)) as (x & c & Hc & ->).
  now apply splitlines_ends_nonempty.
Qed.

(** ** The slug *)

Lemma collapse_forall (P : ascii -> Prop) p repl :
  Forall P repl ->
  forall s b, Forall (fun c => p c = false -> P c) s ->
  Forall P (collapse p repl b s).
Proof.
  intros Hr. induction s as [|c s IH]; intros b H; [constructor|].
  inversion H as [|? ? Hc Hs]; subst. simpl. destruct (p c) eqn:E.
  - apply Forall_app. split; [destruct b; [constructor|exact Hr]|now apply IH].
  - constructor; [now apply Hc|now apply IH].
Qed.

Lemma slug_of_chars text : Forall (fun c => slug_char c = true) (slug_of text).
Proof.
  unfold slug_of. apply collapse_forall.
  - repeat constructor.
  - apply Forall_forall. intros c Hin Hs.
    apply filter_In in Hin as [Hin K]. unfold lower in Hin.
    apply in_map_iff in Hin as (x & <- & _).
    now apply lowered_kept_is_slug_char.
Qed.

Lemma slug_of_fixed s : Forall (fun c => slug_char c = true) s -> slug_of s = s.
Proof.
  unfold slug_of, lower. induction 1 as [|c s Hc _ IH]; [reflexivity|].
  unfold slug_char in Hc. apply andb_true_iff in Hc as [Hc E].
  apply andb_true_iff in Hc as [K S]. apply negb_true_iff in S.
  apply Ascii.eqb_eq in E. cbn [map filter]. rewrite E, K.
  cbn [collapse]. rewrite S. now rewrite IH.
Qed.

Lemma not_kept_slug_empty text :
  Forall (fun c => kept c = false) text -> slug_of text = [].
Proof.
  unfold slug_of, lower. induction 1 as [|c s Hc _ IH]; [reflexivity|].
  cbn [map filter]. rewrite kept_lower_char, Hc. exact IH.
Qed.

(** ** Shape of the headings found *)

Lemma firstn_starts_with_space n s :
  Re.run isspace s = 0 -> starts_with_space (firstn n s) = false.
Proof.
  destruct s as [|c s]; [now destruct n|].
  intros H. apply run_zero_head in H. destruct n; [reflexivity|exact H].
Qed.

Lemma heading_groups (hashes spaces text : list ascii) :
  Re.group heading_re [[]; []; hashes; spaces; []; text; []; []; []] 1
  = hashes ++ spaces ++ text /\
  Re.group heading_re [[]; []; hashes; spaces; []; text; []; []; []] 2
  = text.
Proof. unfold Re.group. cbn. now rewrite !app_nil_r. Qed.

Lemma findall_heading_shape doc hs h :
  Re.findall heading_re doc = Some hs -> In h hs ->
  exists hashes spaces,
    fst h = hashes ++ spaces ++ snd h /\
    hashes <> [] /\ Forall (fun c => is_hash c = true) hashes /\
    spaces <> [] /\ Forall (fun c => isspace c = true) spaces /\
    starts_with_space (snd h) = false /\
    Forall (fun c => Re.dot c = true) (snd h).
Proof.
  unfold Re.findall.
  destruct (Re.scan _ _ _ _) as [ps|] eqn:E; [|discriminate].
  intros [= <-] Hin. apply in_map_iff in Hin as (segs & <- & Hin).
  destruct (scan_hits _ _ _ _ _ _ E Hin) as (prev & s & rest & M).
  clear E Hin. rewrite match_heading in M. unfold heading_at in M. cbv zeta in M.
  pose proof (run_firstn is_hash s) as Hah.
  pose proof (run_pos_firstn_nonempty is_hash s) as Hh.
  remember (Re.run is_hash s) as n eqn:En.
  remember (skipn n s) as s1 eqn:Es1.
  pose proof (run_firstn isspace s1) as Has.
  pose proof (run_pos_firstn_nonempty isspace s1) as Hs.
  pose proof (run_skipn isspace s1) as Hlead.
  remember (Re.run isspace s1) as w eqn:Ew.
  remember (skipn w s1) as s2 eqn:Es2.
  pose proof (run_firstn Re.dot s2) as Hdot.
  remember (Re.run Re.dot s2) as t eqn:Et.
  remember (firstn n s) as hashes. remember (firstn w s1) as spaces.
  pose proof (firstn_starts_with_space t s2 Hlead) as Ht.
  remember (firstn t s2) as text.
  destruct (Re.at_bol prev && (0 <? n) && (0 <? w)) eqn:C; [|discriminate].
  apply andb_true_iff in C as [C Cw]. apply andb_true_iff in C as [_ Cn].
  apply Nat.ltb_lt in Cw, Cn.
  injection M as <- <-.
  destruct (heading_groups hashes spaces text) as [-> ->].
  exists hashes, spaces. cbn [fst snd].
  repeat split; try assumption; [apply Hh|apply Hs]; lia.
Qed.

Lemma count_app c s t : count c (s ++ t) = count c s + count c t.
Proof. unfold count. now rewrite filter_app, length_app. Qed.

Lemma count_all c s : Forall (fun d => Ascii.eqb c d = true) s -> count c s = length s.
Proof.
  unfold count. induction 1 as [|d s Hd _ IH]; [reflexivity|].
  simpl. rewrite Hd. simpl. now rewrite IH.
Qed.

Lemma count_none c s : Forall (fun d => Ascii.eqb c d = false) s -> count c s = 0.
Proof.
  unfold count. induction 1 as [|d s Hd _ IH]; [reflexivity|].
  simpl. now rewrite Hd.
Qed.

(** The level counts the "#" of the heading text as well as the leading
    ones. *)
Lemma level_of_heading doc hs h :
  Re.findall heading_re doc = Some hs -> In h hs ->
  level h = Re.run is_hash (fst h) + count "#"%char (snd h).
Proof.
  intros F Hin.
  destruct (findall_heading_shape doc hs h F Hin)
    as (hashes & spaces & E & Hh & Hah & Hs & Has & _ & _).
  unfold level. rewrite E, !count_app.
  rewrite (count_all _ hashes) by exact Hah.
  rewrite (count_none _ spaces).
  2:{ eapply Forall_impl; [|exact Has]. intros c. apply isspace_not_hash. }
  rewrite run_app_all by exact Hah.
  destruct spaces as [|c spaces]; [congruence|].
  inversion Has as [|? ? Hc _]; subst. apply isspace_not_hash in Hc.
  simpl. rewrite Hc. lia.
Qed.

(** * The claims *)

(** C1 (the code departs from it).  The level is meant to be the number
    of leading "#" of the heading line, but line 11 counts every "#" of
    the matched text.  In the document "# Guide\n## The #define Guard\n"
    the second heading has two leading "#" and is given level 3, so its
    entry is indented by four spaces instead of two. *)
Theorem level_counts_hash_in_title :
  Re.findall heading_re define_guard_doc
    = Some [(L "# Guide", L "Guide");
            (L "## The #define Guard", L "The #define Guard")] /\
  Re.run is_hash (L "## The #define Guard") = 2 /\
  level (L "## The #define Guard", L "The #define Guard") = 3 /\
  toc_lines define_guard_doc
    = Some [L "## Table of Contents";
            L "    - [The #define Guard](#the-define-guard)"].
Proof.
  split; [vm_compute; reflexivity|]. split; [vm_compute; reflexivity|].
  split; vm_compute; reflexivity.
Qed.

(** C2, as stated, fails: the entries of the example document are not
    "- [A](#a)" and "  - [B](#b)". *)
Lemma example_entries_not_flush_left :
  toc_lines example_doc
    <> Some [L "## Table of Contents"; L "- [A](#a)"; L "  - [B](#b)"].
Proof. vm_compute. discriminate. Qed.

(** C2, amended.  For the example document the entries are exactly
    "  - [A](#a)" (two leading spaces) and "    - [B](#b)" (four): the
    indentation is two spaces per level above 1.  Four headings are found;
    the level-1 "Title" and the literal "Table of Contents" give no
    entry. *)
Theorem example_entries :
  Re.findall heading_re example_doc
    = Some [(L "# Title", L "Title"); (L "## A", L "A"); (L "### B", L "B");
            (L "## Table of Contents", L "Table of Contents")] /\
  toc_lines example_doc
    = Some [L "## Table of Contents"; L "  - [A](#a)"; L "    - [B](#b)"] /\
  generate_table_of_contents example_doc
    = Some (L "# Title" ++ nl ++ L "## Table of Contents" ++ nl
              ++ L "  - [A](#a)" ++ nl ++ L "    - [B](#b)" ++ nl
              ++ L "## A" ++ nl ++ L "### B" ++ nl ++ L "## Table of Contents").
Proof.
  split; [vm_compute; reflexivity|]. split; vm_compute; reflexivity.
Qed.

Lemma splitlines_nonempty s : s <> [] -> splitlines s <> [].
Proof.
  destruct s as [|c s]; [congruence|]. intros _. simpl.
  destruct (is_linebreak c); [discriminate|].
  destruct (splitlines s); discriminate.
Qed.

(** Joined lines followed by one more "\n" split into the same lines:
    the final "\n" only ends the last of them. *)
Lemma splitlines_join_nl (parts : list str) :
  parts <> [] ->
  Forall no_linebreak parts ->
  splitlines (join nl parts ++ nl) = parts.
Proof.
  intros Hne H. induction H as [|x parts Hx _ IH]; [congruence|].
  destruct parts as [|y parts].
  - cbn [join]. rewrite <- (app_nil_r nl) at 1.
    now rewrite splitlines_line by exact Hx.
  - rewrite join_cons, <- !app_assoc, splitlines_line by exact Hx.
    rewrite IH by discriminate. reflexivity.
Qed.

(** An empty last line does not come back from the joined text. *)
Lemma splitlines_join_dropped (pre : list str) :
  pre <> [] ->
  Forall no_linebreak pre ->
  splitlines (join nl (pre ++ [[]])) = pre.
Proof.
  intros Hne H. rewrite join_snoc by exact Hne. rewrite app_nil_r.
  now apply splitlines_join_nl.
Qed.

(** The lines of the output, read with [splitlines] as the lines of the
    input are: all the lines put together when the last of them is not
    empty, and all but the last when it is empty. *)
Lemma generate_lines doc toc :
  toc_lines doc = Some toc ->
  exists out,
    generate_table_of_contents doc = Some out /\
    (ends_nonempty
       (firstn 1 (splitlines doc) ++ toc ++ skipn 1 (splitlines doc)) ->
     splitlines out
     = firstn 1 (splitlines doc) ++ toc ++ skipn 1 (splitlines doc)) /\
    (forall pre,
        firstn 1 (splitlines doc) ++ toc ++ skipn 1 (splitlines doc)
        = pre ++ [[]] ->
        splitlines out = pre).
Proof.
  intros T. eexists. split.
  { unfold generate_table_of_contents. rewrite T. reflexivity. }
  destruct (toc_lines_total doc) as (toc' & T' & Hnl & (tp & tl & Hp & Htl)).
  rewrite T in T'. injection T' as <-.
  assert (N : Forall no_linebreak
                (firstn 1 (splitlines doc) ++ toc ++ skipn 1 (splitlines doc))).
  { pose proof (splitlines_no_linebreak doc) as Hl.
    apply Forall_app. split; [|apply Forall_app; split; [exact Hnl|]].
    - destruct (splitlines doc); cbn [firstn]; [constructor|].
      inversion Hl; subst. now repeat constructor.
    - destruct (splitlines doc); cbn [skipn]; [constructor|].
      now inversion Hl. }
  split.
  - intros E. now apply splitlines_join.
  - intros pre E. rewrite E in N |- *.
    apply Forall_app in N as [N _].
    apply splitlines_join_dropped; [|exact N].
    intros ->. rewrite Hp in E. cbn [app] in E.
    pose proof (f_equal (@length str) E) as Len.
    rewrite !length_app in Len. cbn [length] in Len.
    destruct (firstn 1 (splitlines doc)); [|cbn [length] in Len; lia].
    destruct tp; [|cbn [length] in Len; lia].
    destruct (skipn 1 (splitlines doc)); [|cbn [length] in Len; lia].
    cbn [app] in E. congruence.
Qed.

(** C3, as stated, fails: the lines of "# T\n\n" are "# T" and an empty
    line, and the lines of the output are "# T" and the TOC title only:
    the final empty line is not there. *)
Lemma final_empty_line_dropped :
  splitlines blank_end_doc = [L "# T"; []] /\
  toc_lines blank_end_doc = Some [L "## Table of Contents"] /\
  generate_table_of_contents blank_end_doc
    = Some (L "# T" ++ nl ++ L "## Table of Contents" ++ nl) /\
  splitlines (L "# T" ++ nl ++ L "## Table of Contents" ++ nl)
    = [L "# T"; L "## Table of Contents"] /\
  splitlines (L "# T" ++ nl ++ L "## Table of Contents" ++ nl)
    <> [L "# T"] ++ [L "## Table of Contents"] ++ [[]].
Proof.
  split; [vm_compute; reflexivity|]. split; [vm_compute; reflexivity|].
  split; [vm_compute; reflexivity|]. split; [vm_compute; reflexivity|].
  vm_compute. discriminate.
Qed.

(** C3, amended.  For a non-empty document that has a single line or
    whose last line is not empty, the lines of the output are exactly the
    first line, the lines of the TOC block and the remaining lines, each
    unchanged and in order; when the document has further lines and the
    last of them is empty, the lines of the output are the same without
    that final empty line; in every case the first line of the output is
    the first line of the input.  Lines are those of [splitlines], for
    the input and for the output. *)
Theorem generate_line_sequence (doc : str) :
  doc <> [] ->
  exists first rest toc out,
    splitlines doc = first :: rest /\
    toc_lines doc = Some toc /\
    generate_table_of_contents doc = Some out /\
    out = join nl (first :: toc ++ rest) /\
    hd_error (splitlines out) = Some first /\
    (rest = [] \/ ends_nonempty rest ->
     splitlines out = first :: toc ++ rest) /\
    (forall rest', rest = rest' ++ [[]] ->
                   splitlines out = first :: toc ++ rest').
Proof.
  intros Hne. apply splitlines_nonempty in Hne.
  pose proof (splitlines_no_linebreak doc) as Hl.
  destruct (splitlines doc) as [|first rest] eqn:E; [congruence|].
  destruct (toc_lines_total doc) as (toc & Ht & Hnl & (tp & tl & Hp & Htl)).
  destruct (generate_lines doc toc Ht) as (out & G & Full & Cut).
  rewrite E in Full, Cut. cbn [firstn skipn app] in Full, Cut.
  exists first, rest, toc, out.
  split; [reflexivity|]. split; [exact Ht|]. split; [exact G|].
  inversion Hl as [|? ? Hfirst Hrest]; subst.
  assert (O : out = join nl (first :: (tp ++ [tl]) ++ rest)).
  { unfold generate_table_of_contents in G. rewrite Ht, E in G.
    cbn [firstn skipn app] in G. congruence. }
  split; [exact O|]. split; [|split].
  - rewrite O.
    destruct ((tp ++ [tl]) ++ rest) as [|y more] eqn:T.
    + destruct tp; discriminate.
    + rewrite join_cons, splitlines_line by assumption. reflexivity.
  - intros [->|(pre & l & -> & Hl')]; apply Full.
    + rewrite app_nil_r. exists (first :: tp), tl. now split.
    + exists (first :: (tp ++ [tl]) ++ pre), l. split; [|exact Hl'].
      cbn [app]. now rewrite <- !app_assoc.
  - intros rest' ->.
    apply (Cut (first :: (tp ++ [tl]) ++ rest')).
    cbn [app]. now rewrite <- !app_assoc.
Qed.

Lemma generate_line_sequence_witness :
  plain_doc <> [] /\
  exists first rest toc out,
    splitlines plain_doc = first :: rest /\
    toc_lines plain_doc = Some toc /\
    generate_table_of_contents plain_doc = Some out /\
    out = join nl (first :: toc ++ rest) /\
    hd_error (splitlines out) = Some first /\
    (rest = [] \/ ends_nonempty rest ->
     splitlines out = first :: toc ++ rest) /\
    (forall rest', rest = rest' ++ [[]] ->
                   splitlines out = first :: toc ++ rest').
Proof.
  split; [discriminate|apply (generate_line_sequence plain_doc); discriminate].
Defined.

(** C4, as stated, fails: the underscore is a word character for [\w] and
    is not deleted, so "a_b" keeps its underscore, where the description
    (letters, digits, whitespace and hyphen only) gives "ab". *)
Lemma underscore_survives_slug :
  link_text (L "a_b") = Some (L "a_b") /\
  slug_as_described (L "a_b") = L "ab" /\
  link_text (L "a_b") <> Some (slug_as_described (L "a_b")).
Proof.
  split; [vm_compute; reflexivity|]. split; [vm_compute; reflexivity|].
  vm_compute. discriminate.
Qed.

(** C4, amended.  For every heading text the slug is obtained by
    lowercasing the text, deleting every character that is not a letter, a
    digit, the underscore, whitespace or the hyphen, and then replacing
    every run of whitespace by a single hyphen; the heading
    "## Hello, World!" has the text "Hello, World!" and the slug
    "hello-world". *)
Theorem link_text_slug :
  (forall text : str,
      link_text text
      = Some (collapse isspace (L "-") false (filter kept (lower text)))) /\
  Re.findall heading_re (L "## Hello, World!")
    = Some [(L "## Hello, World!", L "Hello, World!")] /\
  link_text (L "Hello, World!") = Some (L "hello-world").
Proof.
  split; [exact link_text_slug_of|]. split; vm_compute; reflexivity.
Qed.

Lemma toc_title_no_linebreak : no_linebreak (L "## Table of Contents").
Proof.
  assert (B : forallb (fun c => negb (is_linebreak c))
                (L "## Table of Contents") = true)
    by (vm_compute; reflexivity).
  rewrite forallb_forall in B. apply Forall_forall. intros c Hc.
  apply B in Hc. now apply negb_true_iff.
Qed.

(** Without any match the loop adds nothing to the TOC block. *)
Lemma generate_without_headings (doc : str) :
  Re.findall heading_re doc = Some [] ->
  toc_lines doc = Some [L "## Table of Contents"] /\
  generate_table_of_contents doc
    = Some (join nl (firstn 1 (splitlines doc) ++ [L "## Table of Contents"]
                       ++ skipn 1 (splitlines doc))).
Proof.
  intros F.
  assert (T : toc_lines doc = Some [L "## Table of Contents"]).
  { unfold toc_lines, build_toc. rewrite F. reflexivity. }
  split; [exact T|].
  unfold generate_table_of_contents. rewrite T. reflexivity.
Qed.

Lemma starts_with_space_run s : starts_with_space s = (0 <? Re.run isspace s).
Proof. destruct s as [|c s]; [reflexivity|]. simpl. now destruct (isspace c). Qed.

Lemma heading_at_none prev s :
  (Re.at_bol prev && hash_then_space s) = false -> heading_at prev s = None.
Proof.
  unfold hash_then_space, heading_at. cbv zeta.
  rewrite starts_with_space_run, andb_assoc. now intros ->.
Qed.

Lemma heading_at_some prev s :
  (Re.at_bol prev && hash_then_space s) = true -> heading_at prev s <> None.
Proof.
  unfold hash_then_space, heading_at. cbv zeta.
  rewrite starts_with_space_run, andb_assoc. intros ->. discriminate.
Qed.

(** Where no line starts a heading, the scan finds nothing. *)
Lemma scan_no_heading_start : forall fuel prev s,
  length s < fuel ->
  heading_start_from (Re.at_bol prev) s = false ->
  exists ps, Re.scan fuel heading_re prev s = Some ps /\ Re.hits ps = [].
Proof.
  induction fuel as [|fuel IH]; intros prev s Hlen Hs; [lia|].
  cbn [Re.scan]. destruct s as [|c s].
  - rewrite match_heading, heading_at_none by apply andb_false_r.
    exists []. split; reflexivity.
  - cbn [heading_start_from] in Hs. apply orb_false_iff in Hs as [H1 H2].
    rewrite match_heading, (heading_at_none _ _ H1).
    destruct (IH (Some c) s) as (ps & -> & Hp); [simpl in Hlen; lia|exact H2|].
    eexists. split; [reflexivity|]. exact Hp.
Qed.

(** Where some line starts a heading, the scan finds one. *)
Lemma scan_heading_start : forall fuel prev s ps,
  Re.scan fuel heading_re prev s = Some ps ->
  heading_start_from (Re.at_bol prev) s = true ->
  Re.hits ps <> [].
Proof.
  induction fuel as [|fuel IH]; intros prev s ps; [discriminate|].
  cbn [Re.scan].
  destruct (Re.match_here heading_re prev s) as [[segs rest]|] eqn:M.
  - intros E _. destruct (concat segs) as [|c m].
    + destruct s as [|d s]; [injection E as <-; discriminate|].
      destruct (Re.scan fuel heading_re (Some d) s); [|discriminate].
      injection E as <-. discriminate.
    + destruct (Re.scan fuel heading_re _ rest); [|discriminate].
      injection E as <-. discriminate.
  - destruct s as [|c s]; [intros _; discriminate|].
    cbn [heading_start_from]. intros E Hs.
    rewrite match_heading in M.
    destruct (Re.at_bol prev && hash_then_space (c :: s)) eqn:H1.
    + now apply heading_at_some in H1.
    + cbn [orb] in Hs.
      destruct (Re.scan fuel heading_re (Some c) s) as [ps'|] eqn:E';
        [|discriminate].
      injection E as <-. cbn. change (flat_map _ ps') with (Re.hits ps').
      now apply (IH (Some c) s).
Qed.

Lemma findall_nothing_iff doc :
  Re.findall heading_re doc = Some [] <-> heading_start doc = false.
Proof.
  unfold Re.findall, heading_start. split.
  - destruct (Re.scan _ _ _ _) as [ps|] eqn:E; [|discriminate].
    intros F. destruct (heading_start_from true doc) eqn:H; [|reflexivity].
    pose proof (scan_heading_start _ None doc ps E H) as N.
    destruct (Re.hits ps); [congruence|discriminate].
  - intros H.
    destruct (scan_no_heading_start (S (length doc)) None doc) as (ps & -> & ->);
      [lia|exact H|reflexivity].
Qed.

(** C5, as stated, fails.  In "##\nfoo" neither line matches the heading
    pattern, yet the match that begins at "##" runs over the line end
    and gives the entry "  - [foo](#foo)".  And for "Title\nbody\n",
    where nothing matches, the output is not the input with one line put
    in: the trailing "\n" is gone. *)
Lemma no_matching_line_yet_an_entry :
  forallb (fun l => negb (line_matches l)) (splitlines cross_line_doc) = true /\
  toc_lines cross_line_doc
    = Some [L "## Table of Contents"; L "  - [foo](#foo)"] /\
  generate_table_of_contents cross_line_doc
    = Some (L "##" ++ nl ++ L "## Table of Contents" ++ nl
              ++ L "  - [foo](#foo)" ++ nl ++ L "foo") /\
  Re.findall heading_re trailing_newline_doc = Some [] /\
  generate_table_of_contents trailing_newline_doc
    = Some (L "Title" ++ nl ++ L "## Table of Contents" ++ nl ++ L "body") /\
  generate_table_of_contents trailing_newline_doc
    <> Some (L "Title" ++ nl ++ L "## Table of Contents" ++ nl ++ L "body"
               ++ nl).
Proof.
  split; [vm_compute; reflexivity|]. split; [vm_compute; reflexivity|].
  split; [vm_compute; reflexivity|]. split; [vm_compute; reflexivity|].
  split; [vm_compute; reflexivity|]. vm_compute. discriminate.
Qed.

(** C5, amended.  The heading pattern matches nowhere exactly when no
    line of the document begins with a run of "#" directly followed by a
    whitespace character, the "\n" that ends the line counting as one.
    For every such document the TOC block is the single line
    "## Table of Contents", and the output is the lines of the input,
    joined by "\n", with exactly that line put in after the first: read
    with [splitlines], the lines of the output are the first line, the
    title and the remaining lines, without the final line when there are
    remaining lines and the last is empty.  The line terminators of the
    input, a trailing one included, are not kept. *)
Theorem no_heading_start_only_title_line (doc : str) :
  (heading_start doc = false <-> Re.findall heading_re doc = Some []) /\
  (heading_start doc = false ->
   toc_lines doc = Some [L "## Table of Contents"] /\
   exists out,
     generate_table_of_contents doc = Some out /\
     out = join nl (firstn 1 (splitlines doc) ++ [L "## Table of Contents"]
                      ++ skipn 1 (splitlines doc)) /\
     (skipn 1 (splitlines doc) = [] \/ ends_nonempty (skipn 1 (splitlines doc)) ->
      splitlines out
      = firstn 1 (splitlines doc) ++ [L "## Table of Contents"]
          ++ skipn 1 (splitlines doc)) /\
     (forall rest', skipn 1 (splitlines doc) = rest' ++ [[]] ->
                    splitlines out
                    = firstn 1 (splitlines doc) ++ [L "## Table of Contents"]
                        ++ rest')).
Proof.
  split; [symmetry; apply findall_nothing_iff|].
  intros H. apply findall_nothing_iff in H.
  destruct (generate_without_headings doc H) as [T G].
  split; [exact T|].
  destruct (generate_lines doc _ T) as (out & G' & Full & Cut).
  exists out. split; [exact G'|].
  split; [rewrite G in G'; congruence|]. split.
  - intros [E|(pre & l & E & Hl)]; apply Full; rewrite E.
    + rewrite app_nil_r.
      exists (firstn 1 (splitlines doc)), (L "## Table of Contents").
      split; [reflexivity|discriminate].
    + exists (firstn 1 (splitlines doc) ++ [L "## Table of Contents"] ++ pre), l.
      split; [now rewrite <- !app_assoc|exact Hl].
  - intros rest' E.
    apply (Cut (firstn 1 (splitlines doc) ++ [L "## Table of Contents"]
                  ++ rest')).
    rewrite E. now rewrite <- !app_assoc.
Qed.

Lemma no_heading_start_only_title_line_witness :
  heading_start plain_doc = false /\
  toc_lines plain_doc = Some [L "## Table of Contents"] /\
  exists out,
    generate_table_of_contents plain_doc = Some out /\
    out = join nl (firstn 1 (splitlines plain_doc)
                     ++ [L "## Table of Contents"]
                     ++ skipn 1 (splitlines plain_doc)) /\
    (skipn 1 (splitlines plain_doc) = []
     \/ ends_nonempty (skipn 1 (splitlines plain_doc)) ->
     splitlines out
     = firstn 1 (splitlines plain_doc) ++ [L "## Table of Contents"]
         ++ skipn 1 (splitlines plain_doc)) /\
    (forall rest', skipn 1 (splitlines plain_doc) = rest' ++ [[]] ->
                   splitlines out
                   = firstn 1 (splitlines plain_doc)
                       ++ [L "## Table of Contents"] ++ rest').
Proof.
  split; [reflexivity|].
  apply (proj2 (no_heading_start_only_title_line plain_doc)). reflexivity.
Defined.

Lemma malformed_run_not_followed_by_space : forall s,
  hash_before_space s = false ->
  Re.run is_hash s <> 0 ->
  Re.run isspace (skipn (Re.run is_hash s) s) = 0.
Proof.
  induction s as [|c s IH]; intros H R; [reflexivity|].
  cbn [Re.run] in *. destruct (is_hash c) eqn:Hc; [|congruence].
  cbn [skipn]. destruct s as [|d s]; [reflexivity|].
  cbn [hash_before_space] in H. rewrite Hc in H.
  apply orb_false_iff in H as [Hd H]. cbn [andb] in Hd.
  destruct (Re.run is_hash (d :: s)) as [|r] eqn:Er.
  - cbn [skipn Re.run]. now rewrite Hd.
  - apply IH; [exact H|discriminate].
Qed.

Lemma hash_before_space_tail c s :
  hash_before_space (c :: s) = false -> hash_before_space s = false.
Proof.
  destruct s as [|d s]; [reflexivity|]. cbn [hash_before_space].
  intros H. now apply orb_false_iff in H.
Qed.

(** Where no "#" is directly followed by whitespace, the scan finds no
    heading. *)
Lemma scan_malformed : forall fuel prev s,
  length s < fuel ->
  hash_before_space s = false ->
  exists ps, Re.scan fuel heading_re prev s = Some ps /\ Re.hits ps = [].
Proof.
  induction fuel as [|fuel IH]; intros prev s Hlen Hs; [lia|].
  cbn [Re.scan]. rewrite match_heading. unfold heading_at. cbv zeta.
  assert (N : (Re.at_bol prev && (0 <? Re.run is_hash s)
               && (0 <? Re.run isspace (skipn (Re.run is_hash s) s))) = false).
  { destruct (Re.run is_hash s) as [|r] eqn:Er; [now rewrite andb_false_r|].
    rewrite <- Er, malformed_run_not_followed_by_space;
      [now rewrite andb_false_r|exact Hs|lia]. }
  rewrite N. destruct s as [|c s]; [exists []; split; reflexivity|].
  destruct (IH (Some c) s) as (ps & -> & Hp);
    [simpl in Hlen; lia|now apply hash_before_space_tail in Hs|].
  eexists. split; [reflexivity|]. exact Hp.
Qed.

Lemma findall_malformed doc :
  hash_before_space doc = false -> Re.findall heading_re doc = Some [].
Proof.
  intros H. unfold Re.findall.
  destruct (scan_malformed (S (length doc)) None doc) as (ps & -> & ->);
    [lia|exact H|reflexivity].
Qed.

(** C6.  The slug derivation always yields a slug, and applied to that
    slug it yields the same slug again. *)
Theorem link_text_idempotent (text : str) :
  exists slug, link_text text = Some slug /\ link_text slug = Some slug.
Proof.
  exists (slug_of text). split; [apply link_text_slug_of|].
  rewrite link_text_slug_of. f_equal. apply slug_of_fixed, slug_of_chars.
Qed.

(** C7, as stated, fails: the text of "## A " is "A " with its trailing
    blank, which also shows in the link text and in the slug. *)
Lemma heading_text_keeps_trailing_space :
  Re.findall heading_re trailing_space_doc
    = Some [(L "# T", L "T"); (L "## A ", L "A ")] /\
  trimmed (L "A ") = false /\
  toc_lines trailing_space_doc
    = Some [L "## Table of Contents"; L "  - [A ](#a-)"].
Proof.
  split; [vm_compute; reflexivity|]. split; vm_compute; reflexivity.
Qed.

(** C7, amended.  For every heading found, the matched text is a run of
    "#", a run of whitespace and the heading text; the heading text
    carries no leading whitespace and no "\n" (trailing whitespace, if
    any, stays); and this same text is what the loop compares with
    "Table of Contents", displays in the link and derives the slug from. *)
Theorem heading_text_left_trimmed (doc : str) (hs : list heading) (h : heading) :
  Re.findall heading_re doc = Some hs ->
  In h hs ->
  (exists hashes spaces,
      fst h = hashes ++ spaces ++ snd h /\
      hashes <> [] /\ Forall (fun c => is_hash c = true) hashes /\
      spaces <> [] /\ Forall (fun c => isspace c = true) spaces) /\
  starts_with_space (snd h) = false /\
  Forall (fun c => Re.dot c = true) (snd h) /\
  forall st,
    loop_body st h =
    Some (mkState
            (toc st ++
             if (1 <? level h) && negb (Str.eqb (snd h) (L "Table of Contents"))
             then mul (L "  ") (level h - 1) ++ L "- [" ++ snd h ++ L "](#"
                    ++ slug_of (snd h) ++ L ")" ++ nl
             else [])
            (stdout st ++ [(level h, h)])).
Proof.
  intros F Hin.
  destruct (findall_heading_shape doc hs h F Hin)
    as (hashes & spaces & E & Hh & Hah & Hs & Has & Hlead & Hdot).
  split; [exists hashes, spaces; repeat split; assumption|].
  split; [exact Hlead|]. split; [exact Hdot|].
  intros st. apply loop_body_eq.
Qed.

Lemma heading_text_left_trimmed_witness :
  Re.findall heading_re trailing_space_doc
    = Some [(L "# T", L "T"); (L "## A ", L "A ")] /\
  In (L "## A ", L "A ") [(L "# T", L "T"); (L "## A ", L "A ")] /\
  starts_with_space (L "A ") = false.
Proof.
  assert (F : Re.findall heading_re trailing_space_doc
              = Some [(L "# T", L "T"); (L "## A ", L "A ")])
    by (vm_compute; reflexivity).
  assert (I : In (L "## A ", L "A ") [(L "# T", L "T"); (L "## A ", L "A ")])
    by (right; left; reflexivity).
  split; [exact F|]. split; [exact I|].
  apply (heading_text_left_trimmed trailing_space_doc _ _ F I).
Defined.

Lemma generate_total doc : exists out, generate_table_of_contents doc = Some out.
Proof.
  unfold generate_table_of_contents.
  destruct (toc_lines_total doc) as (toc & -> & _). eauto.
Qed.

(** C8.  The function returns a string on every input: the scans of
    [re.findall] and [re.sub] always finish, and no other step can fail.
    Malformed headings are passed over in silence: in a document where no
    "#" is directly followed by whitespace nothing is matched, and the
    output is the input lines with the bare "## Table of Contents" line
    put in; "#foo\n#bar" is such a document. *)
Theorem generate_never_fails :
  (forall doc : str, exists out, generate_table_of_contents doc = Some out) /\
  (forall doc : str,
      hash_before_space doc = false ->
      Re.findall heading_re doc = Some [] /\
      generate_table_of_contents doc
        = Some (join nl (firstn 1 (splitlines doc)
                           ++ [L "## Table of Contents"]
                           ++ skipn 1 (splitlines doc)))) /\
  generate_table_of_contents malformed_doc
    = Some (L "#foo" ++ nl ++ L "## Table of Contents" ++ nl ++ L "#bar").
Proof.
  split; [exact generate_total|]. split; [|vm_compute; reflexivity].
  intros doc H. pose proof (findall_malformed doc H) as F.
  split; [exact F|]. now apply generate_without_headings.
Qed.

Lemma generate_never_fails_witness :
  hash_before_space malformed_doc = false /\
  Re.findall heading_re malformed_doc = Some [] /\
  generate_table_of_contents malformed_doc
    = Some (join nl (firstn 1 (splitlines malformed_doc)
                       ++ [L "## Table of Contents"]
                       ++ skipn 1 (splitlines malformed_doc))).
Proof.
  split; [reflexivity|].
  apply (proj1 (proj2 generate_never_fails) malformed_doc). reflexivity.
Defined.

(** C9, as stated, fails: a document that ends with an empty line gives
    an output that ends with "\n". *)
Lemma output_can_end_with_newline :
  generate_table_of_contents blank_end_doc
    = Some (L "# T" ++ nl ++ L "## Table of Contents" ++ nl) /\
  ends_with_newline (L "# T" ++ nl ++ L "## Table of Contents" ++ nl) = true.
Proof. split; vm_compute; reflexivity. Qed.

Lemma output_ends_with_newline_iff doc :
  exists out, generate_table_of_contents doc = Some out /\
    (ends_with_newline out = true <->
     exists pre, splitlines doc = pre ++ [[]] /\ pre <> []).
Proof.
  unfold generate_table_of_contents.
  destruct (toc_lines_total doc) as (toc & -> & Hnl & (tp & tl & -> & Htl)).
  eexists. split; [reflexivity|].
  pose proof (splitlines_no_linebreak doc) as Hl.
  apply Forall_app in Hnl as [_ Hnl]. inversion Hnl as [|? ? Hnl' _]; subst.
  destruct (splitlines doc) as [|x [|y r]]; cbn [firstn skipn].
  - rewrite app_nil_r. cbn [app]. rewrite join_ends_with_newline by assumption.
    split; [intros [? _]; congruence|].
    intros (pre & E & _). destruct pre; discriminate.
  - rewrite app_nil_r. change ([x] ++ tp ++ [tl]) with ((x :: tp) ++ [tl]).
    rewrite join_ends_with_newline by assumption.
    split; [intros [? _]; congruence|].
    intros (pre & E & Hp). destruct pre as [|? [|? ?]]; try discriminate.
    congruence.
  - destruct (@exists_last _ (y :: r)) as (r' & z & Ez); [discriminate|].
    rewrite Ez.
    replace ([x] ++ (tp ++ [tl]) ++ r' ++ [z])
      with ((x :: (tp ++ [tl]) ++ r') ++ [z])
      by (cbn [app]; now rewrite <- !app_assoc).
    assert (Hz : no_linebreak z).
    { inversion Hl as [|? ? _ Hyr]; subst. rewrite Ez in Hyr.
      apply Forall_app in Hyr as [_ Hyr]. now inversion Hyr. }
    rewrite join_ends_with_newline by assumption.
    split.
    + intros [-> _]. exists (x :: r'). split; [reflexivity|discriminate].
    + intros (pre & E & _). split; [|discriminate].
      change (x :: r' ++ [z]) with ((x :: r') ++ [z]) in E.
      apply app_inj_tail in E. apply E.
Qed.

(** C9, amended.  The output ends with "\n" exactly when the input has at
    least two lines and its last line is empty; in particular, when the
    input ends with an ordinary character followed by one "\n", the output
    does not end with "\n": that trailing newline is dropped. *)
Theorem output_trailing_newline :
  (forall doc : str,
      exists out, generate_table_of_contents doc = Some out /\
        (ends_with_newline out = true <->
         exists pre, splitlines doc = pre ++ [[]] /\ pre <> [])) /\
  (forall (body : str) (c : ascii),
      is_linebreak c = false ->
      exists out, generate_table_of_contents (body ++ [c] ++ nl) = Some out /\
        ends_with_newline out = false).
Proof.
  split; [exact output_ends_with_newline_iff|].
  intros body c Hc.
  destruct (output_ends_with_newline_iff (body ++ [c] ++ nl)) as (out & G & I).
  exists out. split; [exact G|].
  destruct (ends_with_newline out); [|reflexivity].
  destruct (proj1 I eq_refl) as (pre & E & _).
  destruct (splitlines_ends_nonempty c Hc body) as (pre' & l & E' & Hl).
  rewrite E in E'. apply app_inj_tail in E' as [_ <-]. congruence.
Qed.

Lemma output_trailing_newline_witness :
  is_linebreak "y"%char = false /\
  exists out,
    generate_table_of_contents (L "# T" ++ nl ++ L "bod" ++ ["y"%char] ++ nl)
      = Some out /\
    ends_with_newline out = false.
Proof.
  split; [reflexivity|].
  apply (proj2 output_trailing_newline (L "# T" ++ nl ++ L "bod") "y"%char).
  reflexivity.
Defined.

(** C10, as stated, fails: "--" contains no letter, digit, underscore or
    whitespace, yet its slug is "--" and not empty, because the hyphen is
    kept by line 17. *)
Lemma hyphen_heading_fragment :
  Re.findall heading_re (L "# T" ++ nl ++ L "## --")
    = Some [(L "# T", L "T"); (L "## --", L "--")] /\
  symbols_as_described (L "--") = true /\
  qualifies (L "## --", L "--") = true /\
  link_text (L "--") = Some (L "--") /\
  toc_lines (L "# T" ++ nl ++ L "## --")
    = Some [L "## Table of Contents"; L "  - [--](#--)"] /\
  toc_lines (L "# T" ++ nl ++ L "## --")
    <> Some [L "## Table of Contents"; L "  - [--](#)"].
Proof.
  split; [vm_compute; reflexivity|]. split; [vm_compute; reflexivity|].
  split; [vm_compute; reflexivity|]. split; [vm_compute; reflexivity|].
  split; [vm_compute; reflexivity|]. vm_compute. discriminate.
Qed.

(** C10, amended.  Every heading of level above 1 whose text is not
    "Table of Contents" and contains no letter, digit, underscore,
    whitespace or hyphen adds the line [indent- [text](#)], a link to the
    empty fragment; a list of such headings adds one such line each, in
    order, repeated headings included. *)
Theorem symbol_headings_empty_fragment (st : state) (hs : list heading) :
  Forall (fun h => 1 < level h /\ snd h <> L "Table of Contents" /\
                   Forall (fun c => kept c = false) (snd h)) hs ->
  exists st',
    loop st hs = Some st' /\
    toc st' = toc st ++
      concat (map (fun h => mul (L "  ") (level h - 1) ++ L "- [" ++ snd h
                              ++ L "](#)" ++ nl) hs).
Proof.
  intros H. rewrite loop_eq. eexists. split; [reflexivity|]. cbn [toc].
  f_equal. induction H as [|h hs (Hlev & Hne & Hk) _ IH]; [reflexivity|].
  cbn [filter map concat].
  assert (Q : qualifies h = true).
  { unfold qualifies. apply andb_true_iff. split; [now apply Nat.ltb_lt|].
    apply negb_true_iff. destruct (Str.eqb _ _) eqn:E; [|reflexivity].
    apply str_eqb_eq in E. contradiction. }
  rewrite Q. cbn [map concat]. rewrite IH. f_equal.
  unfold entry. rewrite (not_kept_slug_empty _ Hk). reflexivity.
Qed.

Lemma symbol_headings_empty_fragment_witness :
  Forall (fun h => 1 < level h /\ snd h <> L "Table of Contents" /\
                   Forall (fun c => kept c = false) (snd h))
    [(L "## !?", L "!?"); (L "## !?", L "!?")] /\
  exists st',
    loop (mkState (L "## Table of Contents" ++ nl) [])
      [(L "## !?", L "!?"); (L "## !?", L "!?")] = Some st' /\
    toc st' = (L "## Table of Contents" ++ nl) ++
      concat (map (fun h => mul (L "  ") (level h - 1) ++ L "- [" ++ snd h
                              ++ L "](#)" ++ nl)
                [(L "## !?", L "!?"); (L "## !?", L "!?")]).
Proof.
  assert (A : Forall (fun h => 1 < level h /\ snd h <> L "Table of Contents" /\
                   Forall (fun c => kept c = false) (snd h))
    [(L "## !?", L "!?"); (L "## !?", L "!?")]).
  { repeat constructor; try discriminate. }
  split; [exact A|].
  apply (symbol_headings_empty_fragment
           (mkState (L "## Table of Contents" ++ nl) []) _ A).
Defined.


(** * Further properties *)

(** ** Positions of the matches *)

Lemma before_cons prev c m : Re.before prev (c :: m) = Re.before (Some c) m.
Proof.
  unfold Re.before. simpl. destruct (rev m) as [|x l]; reflexivity.
Qed.

Lemma before_app prev a : forall b,
  Re.before prev (a ++ b) = Re.before (Re.before prev a) b.
Proof.
  intros b. unfold Re.before. rewrite rev_app_distr.
  destruct (rev b) as [|x l]; [rewrite app_nil_l|]; reflexivity.
Qed.

(** Each match reported by the scan sits in the subject: after a prefix
    [pre], where the pattern matches, and before the rest. *)
Lemma scan_hit_position pat : forall fuel prev s ps segs,
  Re.scan fuel pat prev s = Some ps ->
  In segs (Re.hits ps) ->
  exists pre rest,
    s = pre ++ concat segs ++ rest /\
    Re.match_here pat (Re.before prev pre) (concat segs ++ rest)
    = Some (segs, rest).
Proof.
  induction fuel as [|fuel IH]; intros prev s ps segs; [discriminate|].
  cbn [Re.scan].
  destruct (Re.match_here pat prev s) as [[segs0 rest0]|] eqn:E.
  - pose proof (match_here_app _ _ _ _ _ E) as A.
    assert (Here : exists pre rest,
               s = pre ++ concat segs0 ++ rest /\
               Re.match_here pat (Re.before prev pre) (concat segs0 ++ rest)
               = Some (segs0, rest)).
    { exists [], rest0. split; [exact A|]. rewrite <- A. exact E. }
    destruct (concat segs0) as [|c m] eqn:C.
    + destruct s as [|d s].
      * intros [= <-]. cbn. intros [<-|[]]. rewrite C. exact Here.
      * destruct (Re.scan fuel pat (Some d) s) as [ps'|] eqn:E'; [|discriminate].
        intros [= <-]. cbn. intros [<-|H]; [rewrite C; exact Here|].
        destruct (IH _ _ _ _ E' H) as (pre & rest & -> & M).
        exists (d :: pre), rest. split; [reflexivity|].
        now rewrite before_cons.
    + destruct (Re.scan fuel pat _ rest0) as [ps'|] eqn:E'; [|discriminate].
      intros [= <-]. cbn. intros [<-|H]; [rewrite C; exact Here|].
      destruct (IH _ _ _ _ E' H) as (pre & rest & -> & M).
      exists ((c :: m) ++ pre), rest. split.
      * rewrite A. now rewrite <- app_assoc.
      * now rewrite before_app.
  - destruct s as [|d s].
    + intros [= <-]. intros [].
    + destruct (Re.scan fuel pat (Some d) s) as [ps'|] eqn:E'; [|discriminate].
      intros [= <-]. cbn. intros H.
      destruct (IH _ _ _ _ E' H) as (pre & rest & -> & M).
      exists (d :: pre), rest. split; [reflexivity|].
      now rewrite before_cons.
Qed.

(** With enough fuel the amount does not matter. *)
Lemma scan_fuel pat : forall f1 f2 prev s,
  length s < f1 -> length s < f2 ->
  Re.scan f1 pat prev s = Re.scan f2 pat prev s.
Proof.
  induction f1 as [|f1 IH]; intros f2 prev s H1 H2; [lia|].
  destruct f2 as [|f2]; [lia|]. cbn [Re.scan].
  destruct (Re.match_here pat prev s) as [[segs rest]|] eqn:E.
  - apply match_here_app in E.
    destruct (concat segs) as [|c m] eqn:C.
    + destruct s as [|d s]; [reflexivity|].
      rewrite (IH f2) by (simpl in *; lia). reflexivity.
    + rewrite (IH f2); [reflexivity| |];
        rewrite E in H1, H2; simpl in H1, H2; rewrite length_app in H1, H2; lia.
  - destruct s as [|d s]; [reflexivity|].
    rewrite (IH f2) by (simpl in *; lia). reflexivity.
Qed.

(** One step of the scan, without counting fuel. *)
Lemma scan_step_miss pat prev c s :
  Re.match_here pat prev (c :: s) = None ->
  Re.scan (S (length (c :: s))) pat prev (c :: s) =
  (ps <- Re.scan (S (length s)) pat (Some c) s ;; Some (Re.Lit c :: ps)).
Proof. intros E. cbn [Re.scan]. now rewrite E. Qed.

Lemma scan_step_hit pat prev s segs rest c m :
  Re.match_here pat prev s = Some (segs, rest) ->
  concat segs = c :: m ->
  Re.scan (S (length s)) pat prev s =
  (ps <- Re.scan (S (length rest)) pat (Re.before prev (c :: m)) rest ;;
   Some (Re.Hit segs :: ps)).
Proof.
  intros E C. cbn [Re.scan]. rewrite E, C.
  apply match_here_app in E. rewrite C in E.
  rewrite (scan_fuel pat (length s) (S (length rest))); [reflexivity| |lia].
  rewrite E. simpl. rewrite length_app. lia.
Qed.

Lemma heading_at_shape prev s segs rest :
  heading_at prev s = Some (segs, rest) ->
  exists hashes spaces text,
    segs = [[]; []; hashes; spaces; []; text; []; []; []] /\
    Re.at_bol prev = true /\ Re.at_eol rest = true /\
    hashes <> [] /\ spaces <> [] /\
    Forall (fun c => Re.dot c = true) text.
Proof.
  unfold heading_at. cbv zeta. intros M.
  pose proof (run_pos_firstn_nonempty is_hash s) as Hh.
  remember (Re.run is_hash s) as n eqn:En.
  remember (skipn n s) as s1 eqn:Es1.
  pose proof (run_pos_firstn_nonempty isspace s1) as Hs.
  remember (Re.run isspace s1) as w eqn:Ew.
  remember (skipn w s1) as s2 eqn:Es2.
  pose proof (run_firstn Re.dot s2) as Hdot.
  pose proof (at_eol_after_dot s2) as Heol.
  remember (Re.run Re.dot s2) as t eqn:Et.
  remember (firstn n s) as hashes. remember (firstn w s1) as spaces.
  remember (firstn t s2) as text. remember (skipn t s2) as r.
  destruct (Re.at_bol prev) eqn:B; [|discriminate]. cbn [andb] in M.
  destruct (0 <? n) eqn:Cn; [|discriminate].
  destruct (0 <? w) eqn:Cw; [|discriminate]. cbn [andb] in M.
  apply Nat.ltb_lt in Cw, Cn. injection M as <- <-.
  exists hashes, spaces, text.
  repeat (split; [first [reflexivity|assumption|apply Hh; lia|apply Hs; lia]|]).
  exact Hdot.
Qed.

Lemma at_bol_before pre :
  Re.at_bol (Re.before None pre) = true ->
  pre = [] \/ ends_with_newline pre = true.
Proof.
  unfold Re.before, ends_with_newline, Re.at_bol.
  destruct (rev pre) as [|c l] eqn:E; [|now right].
  intros _. left. apply (f_equal (@rev ascii)) in E.
  now rewrite rev_involutive in E.
Qed.

Lemma heading_position (doc : str) (hs : list heading) (h : heading) :
  Re.findall heading_re doc = Some hs ->
  In h hs ->
  exists pre rest,
    doc = pre ++ fst h ++ rest /\
    (pre = [] \/ ends_with_newline pre = true) /\
    Re.at_eol rest = true.
Proof.
  unfold Re.findall.
  destruct (Re.scan _ _ _ _) as [ps|] eqn:E; [|discriminate].
  intros [= <-] Hin. apply in_map_iff in Hin as (segs & <- & Hin).
  destruct (scan_hit_position _ _ _ _ _ _ E Hin) as (pre & rest & D & M).
  rewrite match_heading in M.
  destruct (heading_at_shape _ _ _ _ M)
    as (hashes & spaces & text & -> & B & Eol & _).
  exists pre, rest. cbn [fst].
  destruct (heading_groups hashes spaces text) as [-> _].
  split; [|split; [now apply at_bol_before|exact Eol]].
  rewrite D. cbn [concat]. now rewrite !app_nil_r, <- !app_assoc.
Qed.

(** X1.  Every heading found is a part of the document that begins at
    the start of the document or right after a "\n" and ends at the end
    of the document or right before a "\n": the generator never invents
    heading text and never takes a heading from the middle of a line. *)
Theorem heading_is_part_of_document (doc : str) (hs : list heading)
    (h : heading) :
  Re.findall heading_re doc = Some hs ->
  In h hs ->
  exists pre rest,
    doc = pre ++ fst h ++ rest /\
    (pre = [] \/ ends_with_newline pre = true) /\
    Re.at_eol rest = true.
Proof. exact (heading_position doc hs h). Qed.

Lemma heading_is_part_of_document_witness :
  Re.findall heading_re trailing_space_doc
    = Some [(L "# T", L "T"); (L "## A ", L "A ")] /\
  In (L "## A ", L "A ") [(L "# T", L "T"); (L "## A ", L "A ")] /\
  exists pre rest,
    trailing_space_doc = pre ++ L "## A " ++ rest /\
    (pre = [] \/ ends_with_newline pre = true) /\
    Re.at_eol rest = true.
Proof.
  assert (F : Re.findall heading_re trailing_space_doc
              = Some [(L "# T", L "T"); (L "## A ", L "A ")])
    by (vm_compute; reflexivity).
  assert (I : In (L "## A ", L "A ") [(L "# T", L "T"); (L "## A ", L "A ")])
    by (right; left; reflexivity).
  split; [exact F|]. split; [exact I|].
  apply (heading_is_part_of_document trailing_space_doc _ _ F I).
Defined.

(** ** The level and the TOC block *)

(** X2.  For every heading found, the level used is the number of
    leading "#" plus the number of "#" in the heading text; it is at
    least 1, and it is the number of leading "#" whenever the text has no
    "#". *)
Theorem heading_level_formula (doc : str) (hs : list heading) (h : heading) :
  Re.findall heading_re doc = Some hs ->
  In h hs ->
  level h = Re.run is_hash (fst h) + count "#"%char (snd h) /\
  1 <= Re.run is_hash (fst h) /\
  (count "#"%char (snd h) = 0 -> level h = Re.run is_hash (fst h)).
Proof.
  intros F Hin. pose proof (level_of_heading doc hs h F Hin) as Lv.
  destruct (findall_heading_shape doc hs h F Hin)
    as (hashes & spaces & E & Hh & Hah & _).
  split; [exact Lv|]. split; [|intros Z; lia].
  rewrite E, run_app_all by exact Hah.
  destruct hashes; [congruence|simpl; lia].
Qed.

Lemma heading_level_formula_witness :
  Re.findall heading_re define_guard_doc
    = Some [(L "# Guide", L "Guide");
            (L "## The #define Guard", L "The #define Guard")] /\
  In (L "## The #define Guard", L "The #define Guard")
    [(L "# Guide", L "Guide");
     (L "## The #define Guard", L "The #define Guard")] /\
  level (L "## The #define Guard", L "The #define Guard")
  = Re.run is_hash (L "## The #define Guard")
    + count "#"%char (L "The #define Guard").
Proof.
  assert (F : Re.findall heading_re define_guard_doc
              = Some [(L "# Guide", L "Guide");
                      (L "## The #define Guard", L "The #define Guard")])
    by (vm_compute; reflexivity).
  assert (I : In (L "## The #define Guard", L "The #define Guard")
                [(L "# Guide", L "Guide");
                 (L "## The #define Guard", L "The #define Guard")])
    by (right; left; reflexivity).
  split; [exact F|]. split; [exact I|].
  apply (heading_level_formula define_guard_doc _ _ F I).
Defined.

(** The text of the TOC block after the loop. *)
Lemma build_toc_eq doc hs :
  Re.findall heading_re doc = Some hs ->
  build_toc doc
  = Some (mkState
            ((L "## Table of Contents" ++ nl)
               ++ concat (map entry (filter qualifies hs)))
            (map (fun h => (level h, h)) hs)).
Proof. intros F. unfold build_toc. rewrite F, loop_eq. reflexivity. Qed.

Lemma toc_lines_head doc :
  exists entries,
    toc_lines doc = Some (L "## Table of Contents" :: entries) /\
    Forall no_linebreak entries.
Proof.
  destruct (findall_total heading_re doc) as [hs F].
  unfold toc_lines. rewrite (build_toc_eq doc hs F). cbn [toc].
  rewrite <- app_assoc, splitlines_line by exact toc_title_no_linebreak.
  eexists. split; [reflexivity|]. apply splitlines_no_linebreak.
Qed.

(** X3.  The TOC block always begins with the line
    "## Table of Contents", whatever the document already contains: for
    the empty document the output is that line alone, and for any other
    document it is the second line of the output, right after the
    unchanged first line. *)
Theorem toc_title_always_inserted :
  (forall doc : str,
      exists entries, toc_lines doc = Some (L "## Table of Contents" :: entries)) /\
  generate_table_of_contents [] = Some (L "## Table of Contents") /\
  (forall doc : str,
      doc <> [] ->
      exists first others out,
        generate_table_of_contents doc = Some out /\
        split_nl out = first :: L "## Table of Contents" :: others /\
        hd_error (splitlines doc) = Some first).
Proof.
  split; [|split; [vm_compute; reflexivity|]].
  - intros doc. destruct (toc_lines_head doc) as (entries & T & _). eauto.
  - intros doc Hne. apply splitlines_nonempty in Hne.
    pose proof (splitlines_no_linebreak doc) as Hl.
    destruct (splitlines doc) as [|first rest] eqn:E; [congruence|].
    destruct (toc_lines_head doc) as (entries & T & Hn).
    exists first, (entries ++ rest),
      (join nl (first :: (L "## Table of Contents" :: entries) ++ rest)).
    split; [unfold generate_table_of_contents; rewrite T, E; reflexivity|].
    split; [|reflexivity].
    inversion Hl; subst. apply split_nl_join; [discriminate|].
    constructor; [assumption|].
    constructor; [exact toc_title_no_linebreak|].
    apply Forall_app. now split.
Qed.

Lemma toc_title_always_inserted_witness :
  example_doc <> [] /\
  exists first others out,
    generate_table_of_contents example_doc = Some out /\
    split_nl out = first :: L "## Table of Contents" :: others /\
    hd_error (splitlines example_doc) = Some first.
Proof.
  split; [discriminate|].
  apply (proj2 (proj2 toc_title_always_inserted) example_doc). discriminate.
Defined.

(** X4.  The output has as many lines as the input plus the lines of the
    TOC block. *)
Theorem output_line_count (doc : str) :
  exists toc out,
    toc_lines doc = Some toc /\
    generate_table_of_contents doc = Some out /\
    length (split_nl out) = length (splitlines doc) + length toc.
Proof.
  destruct (toc_lines_total doc) as (toc & T & Hn & (pre & l & Hp & _)).
  exists toc, (join nl (firstn 1 (splitlines doc) ++ toc
                         ++ skipn 1 (splitlines doc))).
  split; [exact T|].
  split; [unfold generate_table_of_contents; rewrite T; reflexivity|].
  pose proof (splitlines_no_linebreak doc) as Hl.
  rewrite split_nl_join.
  - rewrite !length_app.
    rewrite <- (firstn_skipn 1 (splitlines doc)) at 3. rewrite length_app. lia.
  - rewrite Hp. destruct (firstn 1 _); destruct pre; discriminate.
  - apply Forall_app. split; [|apply Forall_app; split; [exact Hn|]].
    + destruct (splitlines doc); cbn [firstn]; [constructor|].
      inversion Hl; subst. now repeat constructor.
    + destruct (splitlines doc); cbn [skipn]; [constructor|].
      now inversion Hl.
Qed.

Lemma join_forall (P : ascii -> Prop) sep parts :
  Forall P sep -> Forall (Forall P) parts -> Forall P (join sep parts).
Proof.
  intros Hs H. induction H as [|x parts Hx _ IH]; [constructor|].
  destruct parts as [|y parts]; [exact Hx|].
  rewrite join_cons. apply Forall_app. split; [exact Hx|].
  apply Forall_app. split; [exact Hs|exact IH].
Qed.

Lemma generate_parts doc :
  exists parts,
    generate_table_of_contents doc = Some (join nl parts) /\
    Forall no_linebreak parts.
Proof.
  destruct (toc_lines_total doc) as (toc & T & Hn & _).
  exists (firstn 1 (splitlines doc) ++ toc ++ skipn 1 (splitlines doc)).
  split; [unfold generate_table_of_contents; rewrite T; reflexivity|].
  pose proof (splitlines_no_linebreak doc) as Hl.
  apply Forall_app. split; [|apply Forall_app; split; [exact Hn|]].
  - destruct (splitlines doc); cbn [firstn]; [constructor|].
    inversion Hl; subst. now repeat constructor.
  - destruct (splitlines doc); cbn [skipn]; [constructor|].
    now inversion Hl.
Qed.

Lemma generate_only_newlines doc out :
  generate_table_of_contents doc = Some out -> only_newlines out.
Proof.
  destruct (generate_parts doc) as (parts & G & Hp). rewrite G.
  intros [= <-]. apply join_forall.
  - repeat constructor.
  - eapply Forall_impl; [|exact Hp]. intros line Hl.
    eapply Forall_impl; [|exact Hl]. intros c Hc Hb. congruence.
Qed.


(** ** One TOC line per entry *)

Lemma is_linebreak_isspace c : is_linebreak c = true -> isspace c = true.
Proof.
  assert (A : forall c, (negb (is_linebreak c) || isspace c) = true)
    by by_all_chars (fun c => negb (is_linebreak c) || isspace c).
  intros H. specialize (A c). rewrite H in A. exact A.
Qed.

Lemma literal_no_linebreak (s : str) :
  forallb (fun c => negb (is_linebreak c)) s = true -> no_linebreak s.
Proof.
  intros B. rewrite forallb_forall in B. apply Forall_forall.
  intros c Hc. apply B in Hc. now apply negb_true_iff.
Qed.

Lemma mul_no_linebreak s n : no_linebreak s -> no_linebreak (mul s n).
Proof.
  intros H. induction n as [|n IH]; [constructor|].
  simpl. apply Forall_app. now split.
Qed.

Lemma slug_no_linebreak text : no_linebreak (slug_of text).
Proof.
  eapply Forall_impl; [|apply slug_of_chars]. intros c Hc.
  unfold slug_char in Hc. apply andb_true_iff in Hc as [Hc _].
  apply andb_true_iff in Hc as [_ Hs]. apply negb_true_iff in Hs.
  destruct (is_linebreak c) eqn:E; [|reflexivity].
  apply is_linebreak_isspace in E. congruence.
Qed.

Lemma entry_line_no_linebreak h :
  no_linebreak (snd h) -> no_linebreak (entry_line h).
Proof.
  intros H. unfold entry_line.
  repeat (apply Forall_app; split);
    first [ exact H
          | apply slug_no_linebreak
          | apply mul_no_linebreak; apply literal_no_linebreak; reflexivity
          | apply literal_no_linebreak; reflexivity ].
Qed.

Lemma entry_is_line h : entry h = entry_line h ++ nl.
Proof. unfold entry, entry_line. now rewrite <- !app_assoc. Qed.

Lemma splitlines_terminated_lines (ls : list str) :
  Forall no_linebreak ls ->
  splitlines (concat (map (fun l => l ++ nl) ls)) = ls.
Proof.
  induction 1 as [|l ls Hl _ IH]; [reflexivity|].
  cbn [map concat]. rewrite <- app_assoc, splitlines_line by exact Hl.
  now rewrite IH.
Qed.

Lemma toc_lines_explicit (doc : str) (hs : list heading) :
  Re.findall heading_re doc = Some hs ->
  Forall (fun h => qualifies h = true -> no_linebreak (snd h)) hs ->
  toc_lines doc
  = Some (L "## Table of Contents" :: map entry_line (filter qualifies hs)).
Proof.
  intros F H.
  unfold toc_lines. rewrite (build_toc_eq doc hs F). cbn [toc].
  rewrite <- app_assoc, splitlines_line by exact toc_title_no_linebreak.
  do 2 f_equal.
  rewrite (map_ext entry (fun h => entry_line h ++ nl)) by apply entry_is_line.
  rewrite <- (map_map entry_line (fun l => l ++ nl)).
  apply splitlines_terminated_lines.
  apply Forall_forall. intros l Hl. apply in_map_iff in Hl as (h & <- & Hh).
  apply filter_In in Hh as [Hin Q]. apply entry_line_no_linebreak.
  rewrite Forall_forall in H. now apply H.
Qed.

(** X6.  When no heading text that qualifies contains a line boundary,
    the TOC block is the title line followed by exactly one line per
    qualifying heading, in the order of the document:
    [indent- [text](#slug)] with two spaces of indent per level above 1;
    so the block has one line more than there are qualifying headings. *)
Theorem one_toc_line_per_entry (doc : str) (hs : list heading) :
  Re.findall heading_re doc = Some hs ->
  Forall (fun h => qualifies h = true -> no_linebreak (snd h)) hs ->
  toc_lines doc
  = Some (L "## Table of Contents" :: map entry_line (filter qualifies hs)) /\
  (forall toc, toc_lines doc = Some toc ->
               length toc = 1 + length (filter qualifies hs)).
Proof.
  intros F H. pose proof (toc_lines_explicit doc hs F H) as T.
  split; [exact T|]. intros toc T'. rewrite T in T'. injection T' as <-.
  simpl. now rewrite length_map.
Qed.

Lemma one_toc_line_per_entry_witness :
  Re.findall heading_re example_doc
    = Some [(L "# Title", L "Title"); (L "## A", L "A"); (L "### B", L "B");
            (L "## Table of Contents", L "Table of Contents")] /\
  toc_lines example_doc
  = Some (L "## Table of Contents"
            :: map entry_line
                 (filter qualifies
                    [(L "# Title", L "Title"); (L "## A", L "A");
                     (L "### B", L "B");
                     (L "## Table of Contents", L "Table of Contents")])).
Proof.
  assert (F : Re.findall heading_re example_doc
    = Some [(L "# Title", L "Title"); (L "## A", L "A"); (L "### B", L "B");
            (L "## Table of Contents", L "Table of Contents")])
    by (vm_compute; reflexivity).
  split; [exact F|].
  apply (one_toc_line_per_entry example_doc _ F).
  repeat constructor; intros _; apply literal_no_linebreak; reflexivity.
Defined.

(** X7.  [print] is reached once for every heading found, in the order
    of the document, with the level and the heading, also for the
    headings that give no entry. *)
Theorem print_once_per_heading (doc : str) :
  exists hs st,
    Re.findall heading_re doc = Some hs /\
    build_toc doc = Some st /\
    stdout st = map (fun h => (level h, h)) hs /\
    length (filter qualifies hs) <= length (stdout st).
Proof.
  destruct (findall_total heading_re doc) as [hs F].
  eexists hs, _. split; [exact F|]. split; [apply (build_toc_eq doc hs F)|].
  cbn [stdout]. split; [reflexivity|].
  rewrite length_map. apply filter_length_le.
Qed.

(** ** The slug, continued *)

Lemma slug_char_spec c :
  slug_char c = true ->
  (Re.word c || Ascii.eqb c "-"%char) = true /\ isspace c = false /\
  lower_char c = c.
Proof.
  assert (A : forall c,
             (negb (slug_char c)
              || ((Re.word c || Ascii.eqb c "-"%char) && negb (isspace c)
                  && Ascii.eqb (lower_char c) c)) = true)
    by by_all_chars (fun c => negb (slug_char c)
              || ((Re.word c || Ascii.eqb c "-"%char) && negb (isspace c)
                  && Ascii.eqb (lower_char c) c)).
  intros H. specialize (A c). rewrite H in A. cbn [negb orb] in A.
  apply andb_true_iff in A as [A E]. apply andb_true_iff in A as [W S].
  split; [exact W|]. split; [now apply negb_true_iff|now apply Ascii.eqb_eq].
Qed.

Lemma collapse_length p repl : length repl <= 1 ->
  forall s b, length (collapse p repl b s) <= length s.
Proof.
  intros Hr. induction s as [|c s IH]; intros b; [simpl; lia|].
  simpl. destruct (p c).
  - rewrite length_app. specialize (IH true). destruct b; simpl; lia.
  - simpl. specialize (IH false). lia.
Qed.

(** X8.  The slug of any heading text is made only of word characters
    (letters, digits, underscore) and hyphens, holds no whitespace and no
    upper-case letter, and is never longer than the text. *)
Theorem slug_alphabet (text : str) :
  exists slug,
    link_text text = Some slug /\
    Forall (fun c => (Re.word c || Ascii.eqb c "-"%char) = true /\
                     isspace c = false /\ lower_char c = c) slug /\
    length slug <= length text.
Proof.
  exists (slug_of text). split; [apply link_text_slug_of|]. split.
  - eapply Forall_impl; [|apply slug_of_chars]. intros c. apply slug_char_spec.
  - unfold slug_of, lower.
    etransitivity; [apply collapse_length; simpl; lia|].
    etransitivity; [apply filter_length_le|]. now rewrite length_map.
Qed.

(** ** The text around the TOC block *)

Lemma join_app sep : forall a b,
  a <> [] -> b <> [] -> join sep (a ++ b) = join sep a ++ sep ++ join sep b.
Proof.
  induction a as [|x a IH]; intros b Ha Hb; [congruence|].
  destruct a as [|y a].
  - destruct b as [|z b]; [congruence|]. reflexivity.
  - change ((x :: y :: a) ++ b) with (x :: y :: (a ++ b)).
    rewrite !join_cons. change (y :: a ++ b) with ((y :: a) ++ b).
    rewrite IH by (assumption || discriminate). now rewrite <- !app_assoc.
Qed.

Lemma split_nl_nonempty s : split_nl s <> [].
Proof.
  destruct s as [|c s]; simpl; [discriminate|].
  destruct (Ascii.eqb c "010"%char); [discriminate|].
  destruct (split_nl s); discriminate.
Qed.

(** [join] undoes [split]. *)
Lemma join_split_nl s : join nl (split_nl s) = s.
Proof.
  induction s as [|c s IH]; [reflexivity|]. simpl.
  destruct (Ascii.eqb c "010"%char) eqn:E.
  - apply Ascii.eqb_eq in E. subst c.
    pose proof (split_nl_nonempty s) as N.
    destruct (split_nl s) as [|p ps]; [congruence|].
    rewrite join_cons, IH. reflexivity.
  - pose proof (split_nl_nonempty s) as N.
    destruct (split_nl s) as [|p ps]; [congruence|].
    destruct ps as [|q ps]; simpl in *; now rewrite <- IH.
Qed.

Lemma ends_with_newline_cons c d s :
  ends_with_newline (c :: d :: s) = ends_with_newline (d :: s).
Proof.
  change (c :: d :: s) with ([c] ++ d :: s).
  apply ends_with_newline_app. discriminate.
Qed.

(** On a text whose only line boundary is "\n" and that does not end
    with one, [splitlines] is [split]. *)
Lemma splitlines_is_split s :
  only_newlines s -> s <> [] -> ends_with_newline s = false ->
  splitlines s = split_nl s.
Proof.
  induction 1 as [|c s Hc Hs IH]; [congruence|]. intros _ He.
  destruct s as [|d s].
  - simpl. destruct (is_linebreak c) eqn:B.
    + rewrite (Hc eq_refl) in He. discriminate.
    + destruct (Ascii.eqb c "010"%char) eqn:E; [|reflexivity].
      apply Ascii.eqb_eq in E. subst c. discriminate.
  - rewrite ends_with_newline_cons in He.
    specialize (IH ltac:(discriminate) He).
    destruct (is_linebreak c) eqn:B.
    + rewrite (Hc eq_refl).
      change (splitlines ("010"%char :: d :: s))
        with ([] :: splitlines (d :: s)).
      rewrite IH. reflexivity.
    + rewrite splitlines_cons_plain by exact B. rewrite IH.
      cbn [split_nl].
      destruct (Ascii.eqb c "010"%char) eqn:E; [|reflexivity].
      apply Ascii.eqb_eq in E. subst c. discriminate.
Qed.

(** X9.  When the document is a first line, a "\n", and a remainder whose
    only line boundary is "\n" and which does not end with "\n", the
    output is the document with the TOC block and a "\n" put in right
    after the first "\n": the first line and the whole remainder are
    there character for character. *)
Theorem toc_spliced_verbatim (first rest : str) :
  no_linebreak first ->
  only_newlines rest -> rest <> [] -> ends_with_newline rest = false ->
  exists toc,
    toc_lines (first ++ nl ++ rest) = Some toc /\
    generate_table_of_contents (first ++ nl ++ rest)
    = Some (first ++ nl ++ join nl toc ++ nl ++ rest).
Proof.
  intros Hf Hr Hne He.
  destruct (toc_lines_total (first ++ nl ++ rest))
    as (toc & T & _ & (pre & l & Hp & _)).
  exists toc. split; [exact T|].
  unfold generate_table_of_contents. rewrite T.
  rewrite splitlines_line by exact Hf.
  rewrite splitlines_is_split by assumption.
  cbn [firstn skipn app]. f_equal.
  assert (Nt : toc <> []) by (rewrite Hp; destruct pre; discriminate).
  pose proof (split_nl_nonempty rest) as Ns.
  destruct (toc ++ split_nl rest) as [|y more] eqn:E.
  { destruct toc; [congruence|discriminate]. }
  rewrite join_cons, <- E, join_app by assumption.
  now rewrite join_split_nl.
Qed.

Lemma toc_spliced_verbatim_witness :
  no_linebreak (L "# Title") /\
  only_newlines (L "## A" ++ nl ++ nl ++ L "text") /\
  L "## A" ++ nl ++ nl ++ L "text" <> [] /\
  ends_with_newline (L "## A" ++ nl ++ nl ++ L "text") = false /\
  exists toc,
    toc_lines (L "# Title" ++ nl ++ L "## A" ++ nl ++ nl ++ L "text")
    = Some toc /\
    generate_table_of_contents
      (L "# Title" ++ nl ++ L "## A" ++ nl ++ nl ++ L "text")
    = Some (L "# Title" ++ nl ++ join nl toc ++ nl
              ++ L "## A" ++ nl ++ nl ++ L "text").
Proof.
  assert (A : no_linebreak (L "# Title"))
    by (apply literal_no_linebreak; reflexivity).
  assert (B : only_newlines (L "## A" ++ nl ++ nl ++ L "text")).
  { apply Forall_forall. intros c Hc Hb.
    assert (C : forallb (fun c => negb (is_linebreak c)
                                  || Ascii.eqb c "010"%char)
                  (L "## A" ++ nl ++ nl ++ L "text") = true)
      by (vm_compute; reflexivity).
    rewrite forallb_forall in C. apply C in Hc. rewrite Hb in Hc.
    now apply Ascii.eqb_eq in Hc. }
  assert (C : L "## A" ++ nl ++ nl ++ L "text" <> []) by discriminate.
  assert (D : ends_with_newline (L "## A" ++ nl ++ nl ++ L "text") = false)
    by reflexivity.
  split; [exact A|]. split; [exact B|]. split; [exact C|]. split; [exact D|].
  apply (toc_spliced_verbatim (L "# Title")
           (L "## A" ++ nl ++ nl ++ L "text") A B C D).
Defined.

(** ** Documents given line by line *)

Lemma run_app_short p t s :
  Re.run p t < length t -> Re.run p (t ++ s) = Re.run p t.
Proof.
  induction t as [|c t IH]; simpl; [lia|].
  destruct (p c); [|reflexivity]. intros H. rewrite IH; [reflexivity|lia].
Qed.

Lemma run_exact p a b :
  Forall (fun c => p c = true) a -> Re.run p b = 0 ->
  Re.run p (a ++ b) = length a.
Proof. intros Ha Hb. rewrite run_app_all by exact Ha. lia. Qed.

Lemma firstn_exact (a b : list ascii) : firstn (length a) (a ++ b) = a.
Proof.
  rewrite firstn_app, Nat.sub_diag, firstn_all. simpl. apply app_nil_r.
Qed.

Lemma skipn_exact (a b : list ascii) : skipn (length a) (a ++ b) = b.
Proof.
  rewrite skipn_app, Nat.sub_diag, skipn_all. reflexivity.
Qed.

Lemma at_eol_run_hash s : Re.at_eol s = true -> Re.run is_hash s = 0.
Proof.
  destruct s as [|c s]; [reflexivity|]. simpl. intros E.
  apply Ascii.eqb_eq in E. subst c. reflexivity.
Qed.

Lemma at_eol_run_dot s : Re.at_eol s = true -> Re.run Re.dot s = 0.
Proof.
  destruct s as [|c s]; [reflexivity|]. simpl. intros E.
  apply Ascii.eqb_eq in E. subst c. reflexivity.
Qed.

Lemma heading_at_not_bol prev s : Re.at_bol prev = false -> heading_at prev s = None.
Proof. intros B. unfold heading_at. cbv zeta. now rewrite B. Qed.

Lemma heading_at_no_hash prev s : Re.run is_hash s = 0 -> heading_at prev s = None.
Proof.
  intros R. unfold heading_at. cbv zeta. rewrite R.
  now rewrite andb_false_r.
Qed.

(** At the start of a line that is no heading, nothing matches. *)
Lemma heading_at_plain prev t s :
  no_heading_start t = true -> Re.at_eol s = true ->
  heading_at prev (t ++ s) = None.
Proof.
  unfold no_heading_start. intros N E.
  destruct (Re.run is_hash t) as [|r] eqn:R.
  - apply heading_at_no_hash. destruct t as [|c t].
    + now apply at_eol_run_hash.
    + simpl in *. destruct (is_hash c); [discriminate|reflexivity].
  - destruct (skipn (S r) t) as [|c t'] eqn:K; [discriminate|].
    apply negb_true_iff in N.
    assert (Lt : Re.run is_hash t < length t).
    { rewrite R. destruct (Nat.lt_ge_cases (S r) (length t)) as [|G]; [assumption|].
      rewrite skipn_all2 in K by exact G. discriminate. }
    unfold heading_at. cbv zeta. rewrite run_app_short by exact Lt.
    rewrite R, skipn_app, K.
    replace (S r - length t) with 0 by lia. cbn [skipn app Re.run].
    rewrite N. cbn [Nat.ltb Nat.leb]. now rewrite andb_false_r.
Qed.

(** Inside a line nothing matches: the scan copies the characters. *)
Lemma scan_inside_line : forall t prev s,
  Forall (fun c => Re.dot c = true) t ->
  Re.at_bol prev = false ->
  Re.scan (S (length (t ++ s))) heading_re prev (t ++ s) =
  (ps <- Re.scan (S (length s)) heading_re (Re.before prev t) s ;;
   Some (map Re.Lit t ++ ps)).
Proof.
  induction t as [|c t IH]; intros prev s Ht B.
  - cbn [app map]. destruct (Re.scan _ _ _ s); reflexivity.
  - inversion Ht as [|? ? Hc Ht']; subst.
    change ((c :: t) ++ s) with (c :: (t ++ s)).
    rewrite scan_step_miss
      by (rewrite match_heading; now apply heading_at_not_bol).
    rewrite IH; [|exact Ht'|].
    + rewrite before_cons.
      destruct (Re.scan _ _ _ s); reflexivity.
    + unfold Re.dot in Hc. now apply negb_true_iff in Hc.
Qed.

Lemma scan_plain_line t prev s :
  well_formed (PlainLine t) -> Re.at_eol s = true ->
  Re.scan (S (length (t ++ s))) heading_re prev (t ++ s) =
  (ps <- Re.scan (S (length s)) heading_re (Re.before prev t) s ;;
   Some (map Re.Lit t ++ ps)).
Proof.
  intros [N Ht] E. destruct t as [|c t].
  - cbn [app map]. destruct (Re.scan _ _ _ s); reflexivity.
  - inversion Ht as [|? ? Hc Ht']; subst.
    change ((c :: t) ++ s) with (c :: (t ++ s)).
    rewrite scan_step_miss.
    2:{ rewrite match_heading.
        change (c :: t ++ s) with ((c :: t) ++ s). now apply heading_at_plain. }
    rewrite scan_inside_line; [|exact Ht'|].
    + rewrite before_cons. destruct (Re.scan _ _ _ s); reflexivity.
    + unfold Re.dot in Hc. now apply negb_true_iff in Hc.
Qed.

(** At the start of a heading line the pattern matches the whole line. *)
Lemma match_heading_line k ws text prev s :
  well_formed (HeadingLine k ws text) ->
  Re.at_bol prev = true -> Re.at_eol s = true ->
  Re.match_here heading_re prev (render (HeadingLine k ws text) ++ s)
  = Some ([[]; []; repeat "#"%char k; ws; []; text; []; []; []], s).
Proof.
  intros (Hk & Hws & Hsp & _ & Htx & Hlead & Hdot) B E.
  rewrite match_heading. unfold heading_at, render. cbv zeta.
  assert (Hh : Forall (fun c => is_hash c = true) (repeat "#"%char k)).
  { apply Forall_forall. intros d Hd. apply repeat_spec in Hd. now subst d. }
  assert (Hn : repeat "#"%char k <> []) by (destruct k; [lia|discriminate]).
  remember (repeat "#"%char k) as hashes eqn:Eh. clear Eh Hk.
  rewrite <- !app_assoc.
  assert (R1 : Re.run is_hash (hashes ++ ws ++ text ++ s) = length hashes).
  { apply run_exact; [exact Hh|].
    destruct ws as [|w ws']; [congruence|]. inversion Hsp; subst.
    simpl. now rewrite isspace_not_hash. }
  rewrite R1, B, firstn_exact, skipn_exact.
  assert (R2 : Re.run isspace (ws ++ text ++ s) = length ws).
  { apply run_exact; [exact Hsp|].
    destruct text as [|c text']; [congruence|]. simpl in *. now rewrite Hlead. }
  rewrite R2, firstn_exact, skipn_exact.
  assert (R3 : Re.run Re.dot (text ++ s) = length text).
  { apply run_exact; [exact Hdot|now apply at_eol_run_dot]. }
  rewrite R3, firstn_exact, skipn_exact.
  destruct hashes; [congruence|]. destruct ws; [congruence|]. reflexivity.
Qed.

Lemma hits_lits t ps : Re.hits (map Re.Lit t ++ ps) = Re.hits ps.
Proof. induction t as [|c t IH]; [reflexivity|exact IH]. Qed.

(** One line, at the start of a line, followed by text that begins at a
    line end. *)
Lemma scan_line l prev s (found : list heading) :
  well_formed l ->
  Re.at_bol prev = true -> Re.at_eol s = true ->
  (forall prev', exists ps,
      Re.scan (S (length s)) heading_re prev' s = Some ps /\
      map (fun segs => (Re.group heading_re segs 1, Re.group heading_re segs 2))
        (Re.hits ps) = found) ->
  exists ps,
    Re.scan (S (length (render l ++ s))) heading_re prev (render l ++ s)
    = Some ps /\
    map (fun segs => (Re.group heading_re segs 1, Re.group heading_re segs 2))
      (Re.hits ps) = heading_of l ++ found.
Proof.
  intros W B E K. destruct l as [t|k ws text].
  - cbn [render heading_of app]. rewrite scan_plain_line by assumption.
    destruct (K (Re.before prev t)) as (ps & -> & F).
    eexists. split; [reflexivity|]. now rewrite hits_lits.
  - pose proof (match_heading_line k ws text prev s W B E) as M.
    destruct W as (Hk & Hws & _).
    destruct k as [|k]; [lia|].
    rewrite (scan_step_hit _ _ _ _ _ "#"%char
               (repeat "#"%char k ++ ws ++ text ++ []) M)
      by reflexivity.
    destruct (K (Re.before prev
                   ("#"%char :: repeat "#"%char k ++ ws ++ text ++ [])))
      as (ps & -> & F).
    eexists. split; [reflexivity|].
    cbn [Re.hits flat_map app map heading_of].
    change (flat_map _ ps) with (Re.hits ps). rewrite F.
    destruct (heading_groups (repeat "#"%char (S k)) ws text) as [G1 G2].
    f_equal. f_equal; [exact G1|exact G2].
Qed.

Lemma join_tail (x : str) (xs : list str) :
  join nl (x :: xs) = x ++ concat (map (fun y => nl ++ y) xs).
Proof.
  revert x. induction xs as [|y xs IH]; intros x.
  - simpl. now rewrite app_nil_r.
  - rewrite join_cons, IH. cbn [map concat]. now rewrite <- !app_assoc.
Qed.

Lemma at_eol_tail (xs : list str) :
  Re.at_eol (concat (map (fun y => nl ++ y) xs)) = true.
Proof. destruct xs; reflexivity. Qed.

Lemma scan_end n prev : Re.scan (S n) heading_re prev [] = Some [].
Proof.
  cbn [Re.scan]. rewrite match_heading, heading_at_no_hash; reflexivity.
Qed.

Lemma scan_tail : forall lines,
  Forall well_formed lines ->
  forall prev, exists ps,
    Re.scan (S (length (concat (map (fun y => nl ++ y) (map render lines)))))
      heading_re prev (concat (map (fun y => nl ++ y) (map render lines)))
    = Some ps /\
    map (fun segs => (Re.group heading_re segs 1, Re.group heading_re segs 2))
      (Re.hits ps) = flat_map heading_of lines.
Proof.
  induction 1 as [|l lines W _ IH]; intros prev.
  - exists []. split; [apply scan_end|reflexivity].
  - cbn [map concat flat_map].
    change ((nl ++ render l) ++ concat (map (fun y => nl ++ y) (map render lines)))
      with ("010"%char
              :: (render l ++ concat (map (fun y => nl ++ y) (map render lines)))).
    rewrite scan_step_miss
      by (rewrite match_heading; now apply heading_at_no_hash).
    destruct (scan_line l (Some "010"%char)
                (concat (map (fun y => nl ++ y) (map render lines)))
                (flat_map heading_of lines) W eq_refl (at_eol_tail _) IH)
      as (ps & -> & F).
    eexists. split; [reflexivity|]. exact F.
Qed.

Lemma findall_document (lines : list line) :
  Forall well_formed lines ->
  Re.findall heading_re (document lines) = Some (flat_map heading_of lines).
Proof.
  intros W. unfold Re.findall, document.
  destruct W as [|l lines Wl W].
  - cbn [map join length flat_map]. now rewrite scan_end.
  - cbn [map flat_map]. rewrite join_tail.
    destruct (scan_line l None
                (concat (map (fun y => nl ++ y) (map render lines)))
                (flat_map heading_of lines) Wl eq_refl (at_eol_tail _)
                (scan_tail lines W))
      as (ps & -> & F).
    now rewrite F.
Qed.

(** X10.  In a document made of lines that are either plain (not
    beginning with a "#" run followed by whitespace or by the line end)
    or headings (one or more "#", blanks, a non-empty title without
    leading whitespace), [re.findall] gives exactly the heading lines, in
    order, each with its title: no heading is missed and no plain line
    is taken for one. *)
Theorem findall_well_formed (lines : list line) :
  Forall well_formed lines ->
  Re.findall heading_re (document lines) = Some (flat_map heading_of lines).
Proof. exact (findall_document lines). Qed.

(** A document used as a witness: a title, a plain line with a "#"
    inside, a "#" run that is no heading, and a heading. *)
Lemma sample_lines_well_formed :
  Forall well_formed
    [HeadingLine 1 (L " ") (L "Title"); PlainLine (L "see #1");
     PlainLine (L "#foo"); HeadingLine 2 (L " ") (L "A")].
Proof.
  assert (D : forall s : str,
             forallb Re.dot s = true -> Forall (fun c => Re.dot c = true) s).
  { intros s B. rewrite forallb_forall in B. now apply Forall_forall. }
  assert (S : forall s : str,
             forallb isspace s = true -> Forall (fun c => isspace c = true) s).
  { intros s B. rewrite forallb_forall in B. now apply Forall_forall. }
  repeat constructor;
    first [ discriminate | apply D; reflexivity | apply S; reflexivity ].
Defined.

Lemma findall_well_formed_witness :
  Forall well_formed
    [HeadingLine 1 (L " ") (L "Title"); PlainLine (L "see #1");
     PlainLine (L "#foo"); HeadingLine 2 (L " ") (L "A")] /\
  Re.findall heading_re
    (document [HeadingLine 1 (L " ") (L "Title"); PlainLine (L "see #1");
               PlainLine (L "#foo"); HeadingLine 2 (L " ") (L "A")])
  = Some [(L "# Title", L "Title"); (L "## A", L "A")].
Proof.
  split; [exact sample_lines_well_formed|].
  apply (findall_well_formed _ sample_lines_well_formed).
Defined.

Lemma heading_of_no_linebreak l h :
  no_linebreak (render l) -> In h (heading_of l) -> no_linebreak (snd h).
Proof.
  destruct l as [t|k ws text]; [intros _ []|].
  cbn [heading_of render]. intros N [<-|[]]. cbn [snd].
  apply Forall_app in N as [_ N]. now apply Forall_app in N as [_ N].
Qed.

(** X11.  For a document of well-formed lines without other line
    boundaries and with a non-empty last line, the whole output is known:
    the first line, the title "## Table of Contents", one entry line for
    each heading line that qualifies, in order, and then the other lines
    as they were. *)
Theorem generate_well_formed (l : line) (rest : list line) :
  Forall well_formed (l :: rest) ->
  Forall (fun x => no_linebreak (render x)) (l :: rest) ->
  ends_nonempty (map render (l :: rest)) ->
  generate_table_of_contents (document (l :: rest))
  = Some (join nl
            (render l
               :: (L "## Table of Contents"
                     :: map entry_line
                          (filter qualifies (flat_map heading_of (l :: rest))))
               ++ map render rest)).
Proof.
  intros W N E.
  pose proof (findall_document (l :: rest) W) as F.
  assert (H : Forall (fun h => qualifies h = true -> no_linebreak (snd h))
                (flat_map heading_of (l :: rest))).
  { apply Forall_forall. intros h Hh _. apply in_flat_map in Hh as (x & Hx & Hh).
    rewrite Forall_forall in N. apply (heading_of_no_linebreak x); auto. }
  pose proof (toc_lines_explicit _ _ F H) as T.
  unfold generate_table_of_contents. rewrite T.
  unfold document. rewrite splitlines_join; [reflexivity| |exact E].
  apply Forall_forall. intros x Hx. apply in_map_iff in Hx as (y & <- & Hy).
  rewrite Forall_forall in N. now apply N.
Qed.

Lemma generate_well_formed_witness :
  Forall well_formed
    [HeadingLine 1 (L " ") (L "Title"); PlainLine (L "see #1");
     PlainLine (L "#foo"); HeadingLine 2 (L " ") (L "A")] /\
  generate_table_of_contents
    (document [HeadingLine 1 (L " ") (L "Title"); PlainLine (L "see #1");
               PlainLine (L "#foo"); HeadingLine 2 (L " ") (L "A")])
  = Some (L "# Title" ++ nl ++ L "## Table of Contents" ++ nl
            ++ L "  - [A](#a)" ++ nl ++ L "see #1" ++ nl ++ L "#foo" ++ nl
            ++ L "## A").
Proof.
  split; [exact sample_lines_well_formed|].
  apply (generate_well_formed _ _ sample_lines_well_formed).
  - repeat constructor; apply literal_no_linebreak; reflexivity.
  - exists [L "# Title"; L "see #1"; L "#foo"], (L "## A").
    split; [reflexivity|discriminate].
Defined.

(** ** Documents with "\n" line ends only *)

Lemma heading_text_no_linebreak doc hs h :
  only_newlines doc ->
  Re.findall heading_re doc = Some hs -> In h hs ->
  no_linebreak (snd h).
Proof.
  intros O F Hin.
  destruct (heading_position doc hs h F Hin) as (pre & rest & D & _).
  destruct (findall_heading_shape doc hs h F Hin)
    as (hashes & spaces & E & _ & _ & _ & _ & _ & Hdot).
  apply Forall_forall. intros c Hc.
  destruct (is_linebreak c) eqn:B; [|reflexivity].
  assert (Hd : In c doc).
  { rewrite D, E. apply in_or_app. right. apply in_or_app. left.
    apply in_or_app. right. apply in_or_app. now right. }
  unfold only_newlines in O. rewrite Forall_forall in O.
  specialize (O c Hd B). subst c.
  rewrite Forall_forall in Hdot. specialize (Hdot _ Hc). discriminate.
Qed.

(** X12.  In a document whose only line boundary is "\n", every
    qualifying heading gives exactly one line of the TOC block: the block
    is the title followed by the entry lines, in order. *)
Theorem toc_block_of_unix_document (doc : str) (hs : list heading) :
  only_newlines doc ->
  Re.findall heading_re doc = Some hs ->
  toc_lines doc
  = Some (L "## Table of Contents" :: map entry_line (filter qualifies hs)).
Proof.
  intros O F. apply (toc_lines_explicit doc hs F).
  apply Forall_forall. intros h Hin _.
  now apply (heading_text_no_linebreak doc hs h).
Qed.

Lemma literal_only_newlines (s : str) :
  forallb (fun c => negb (is_linebreak c) || Ascii.eqb c "010"%char) s = true ->
  only_newlines s.
Proof.
  intros C. rewrite forallb_forall in C. apply Forall_forall.
  intros c Hc Hb. apply C in Hc. rewrite Hb in Hc. now apply Ascii.eqb_eq in Hc.
Qed.

Lemma toc_block_of_unix_document_witness :
  only_newlines example_doc /\
  Re.findall heading_re example_doc
    = Some [(L "# Title", L "Title"); (L "## A", L "A"); (L "### B", L "B");
            (L "## Table of Contents", L "Table of Contents")] /\
  toc_lines example_doc
  = Some [L "## Table of Contents"; L "  - [A](#a)"; L "    - [B](#b)"].
Proof.
  assert (O : only_newlines example_doc)
    by (apply literal_only_newlines; reflexivity).
  assert (F : Re.findall heading_re example_doc
    = Some [(L "# Title", L "Title"); (L "## A", L "A"); (L "### B", L "B");
            (L "## Table of Contents", L "Table of Contents")])
    by (vm_compute; reflexivity).
  split; [exact O|]. split; [exact F|].
  apply (toc_block_of_unix_document example_doc _ O F).
Defined.

(** ** The script *)

Lemma universal_newlines_cons_plain c s :
  Ascii.eqb c "013"%char = false ->
  universal_newlines (c :: s) = c :: universal_newlines s.
Proof. intros H. simpl. now rewrite H. Qed.

(** Text-mode reading leaves no "\r". *)
Lemma universal_newlines_no_cr s :
  Forall (fun c => Ascii.eqb c "013"%char = false) (universal_newlines s).
Proof.
  induction s as [|c|c d s IH1 IH2] using str_ind2.
  - constructor.
  - simpl. destruct (Ascii.eqb c "013"%char) eqn:E; repeat constructor. exact E.
  - destruct (Ascii.eqb c "013"%char) eqn:E.
    + change (universal_newlines (c :: d :: s)) with
        (if Ascii.eqb c "013"%char then
           "010"%char :: (if Ascii.eqb d "010"%char then universal_newlines s
                          else universal_newlines (d :: s))
         else c :: universal_newlines (d :: s)).
      rewrite E. constructor; [reflexivity|].
      destruct (Ascii.eqb d "010"%char); assumption.
    + rewrite universal_newlines_cons_plain by exact E.
      constructor; assumption.
Qed.

(** If the line ends of the file are "\n", "\r\n" or "\r", the text read
    has "\n" as its only line boundary. *)
Lemma universal_newlines_only_newlines s :
  Forall (fun c => is_linebreak c = true ->
                   c = "010"%char \/ c = "013"%char) s ->
  only_newlines (universal_newlines s).
Proof.
  intros H. pose proof (universal_newlines_no_cr s) as N.
  assert (I : forall c, In c (universal_newlines s) ->
                        c = "010"%char \/ In c s).
  { clear H N. induction s as [|c|c d s IH1 IH2] using str_ind2; intros x.
    - intros [].
    - simpl. destruct (Ascii.eqb c "013"%char); intros [<-|[]];
        [now left|right; now left].
    - destruct (Ascii.eqb c "013"%char) eqn:E.
      + change (universal_newlines (c :: d :: s)) with
          (if Ascii.eqb c "013"%char then
             "010"%char :: (if Ascii.eqb d "010"%char then universal_newlines s
                            else universal_newlines (d :: s))
           else c :: universal_newlines (d :: s)).
        rewrite E. intros [<-|Hx]; [now left|].
        destruct (Ascii.eqb d "010"%char).
        * destruct (IH1 _ Hx) as [->|Hi]; [now left|]. right. now do 2 right.
        * destruct (IH2 _ Hx) as [->|Hi]; [now left|]. right. now right.
      + rewrite universal_newlines_cons_plain by exact E.
        intros [<-|Hx]; [right; now left|].
        destruct (IH2 _ Hx) as [->|Hi]; [now left|]. right. now right. }
  apply Forall_forall. intros c Hc Hb.
  destruct (I c Hc) as [->|Hi]; [reflexivity|].
  rewrite Forall_forall in H, N.
  destruct (H c Hi Hb) as [->| ->]; [reflexivity|].
  specialize (N _ Hc). discriminate.
Qed.

Lemma input_is_not_output :
  String.eqb "README.md.notoc"%string "README.md"%string = false.
Proof. reflexivity. Qed.

(** What a run does, case by case. *)
Lemma main_eq io linesep fs :
  main io linesep fs =
  match read_fault io "README.md.notoc"%string with
  | Some e => Raised e []
  | None =>
      match fs "README.md.notoc"%string with
      | None => Raised FileNotFoundError []
      | Some content =>
          match build_toc (universal_newlines content),
                generate_table_of_contents (universal_newlines content) with
          | Some st, Some out =>
              match write_fault io "README.md"%string out with
              | Some e => Raised e (stdout st)
              | None =>
                  Finished
                    (fun name =>
                       if String.eqb name "README.md"%string
                       then Some (write_newlines linesep out)
                       else fs name)
                    (stdout st)
              end
          | _, _ => OutOfFuel
          end
      end
  end.
Proof.
  unfold main, read_text. destruct (read_fault io _); [reflexivity|].
  destruct (fs _); reflexivity.
Qed.




(** X14.  Running the script again changes nothing: the second run
    finishes with the same files and prints the same, because the input
    file is never written. *)
Theorem main_rerun (io : faults) (linesep : str) (fs fs' : files)
    (printed : list (nat * heading)) :
  main io linesep fs = Finished fs' printed ->
  exists fs'',
    main io linesep fs' = Finished fs'' printed /\
    forall name, fs'' name = fs' name.
Proof.
  rewrite !main_eq.
  destruct (read_fault io _) as [e|] eqn:R; [discriminate|].
  destruct (fs "README.md.notoc"%string) as [content|] eqn:E; [|discriminate].
  destruct (build_toc _) as [st|] eqn:B; [|discriminate].
  destruct (generate_table_of_contents _) as [out|] eqn:G; [|discriminate].
  destruct (write_fault io _ out) as [e|] eqn:W; [discriminate|].
  intros [= <- <-]. cbn beta. rewrite input_is_not_output, E, B, G, W.
  eexists. split; [reflexivity|].
  intros name. cbn beta. destruct (String.eqb name "README.md"%string);
    reflexivity.
Qed.

Lemma main_rerun_witness :
  exists fs' printed,
    main no_faults nl example_files = Finished fs' printed /\
    exists fs'',
      main no_faults nl fs' = Finished fs'' printed /\
      forall name, fs'' name = fs' name.
Proof.
  destruct (main no_faults nl example_files) as [fs' printed|e printed|] eqn:M.
  - exists fs', printed. split; [reflexivity|].
    apply (main_rerun no_faults nl example_files fs' printed M).
  - vm_compute in M. discriminate.
  - vm_compute in M. discriminate.
Defined.

Lemma write_cr_head s :
  match write_newlines ["013"%char] s with
  | d :: _ => Ascii.eqb d "010"%char = false
  | [] => True
  end.
Proof.
  destruct s as [|c s]; [exact I|]. unfold write_newlines. cbn [flat_map].
  destruct (Ascii.eqb c "010"%char) eqn:E; [reflexivity|exact E].
Qed.

(** Reading in text mode what was written in text mode gives the text
    back, when the text has no "\r". *)
Lemma read_back linesep s :
  linesep = nl \/ linesep = ["013"%char; "010"%char] \/ linesep = ["013"%char] ->
  Forall (fun c => Ascii.eqb c "013"%char = false) s ->
  universal_newlines (write_newlines linesep s) = s.
Proof.
  intros Hl H. unfold nl in Hl.
  induction H as [|c s Hc _ IH]; [reflexivity|].
  unfold write_newlines in *. cbn [flat_map].
  destruct (Ascii.eqb c "010"%char) eqn:E.
  - apply Ascii.eqb_eq in E. subst c.
    destruct Hl as [->|[->| ->]].
    + cbn [app]. rewrite universal_newlines_cons_plain by reflexivity.
      now rewrite IH.
    + cbn [app].
      change (universal_newlines ("013"%char :: "010"%char :: ?x))
        with ("010"%char :: universal_newlines x).
      now rewrite IH.
    + cbn [app]. pose proof (write_cr_head s) as Hd.
      unfold write_newlines in Hd.
      destruct (flat_map _ s) as [|d r] eqn:W.
      * simpl in IH. subst s. reflexivity.
      * change (universal_newlines ("013"%char :: d :: r))
          with ("010"%char
                  :: (if Ascii.eqb d "010"%char then universal_newlines r
                      else universal_newlines (d :: r))).
        rewrite Hd. now rewrite IH.
  - cbn [app]. rewrite universal_newlines_cons_plain by exact Hc.
    now rewrite IH.
Qed.

Lemma only_newlines_no_cr s :
  only_newlines s -> Forall (fun c => Ascii.eqb c "013"%char = false) s.
Proof.
  apply Forall_impl. intros c H.
  destruct (Ascii.eqb c "013"%char) eqn:E; [|reflexivity].
  apply Ascii.eqb_eq in E. subst c. specialize (H eq_refl). discriminate.
Qed.

(** X15.  Whatever the line separator of the platform ("\n", "\r\n" or
    "\r"), reading README.md back in text mode after a run gives exactly
    the string that the function returned. *)
Theorem readme_reads_back (io : faults) (linesep : str) (fs fs' : files)
    (printed : list (nat * heading)) :
  linesep = nl \/ linesep = ["013"%char; "010"%char] \/ linesep = ["013"%char] ->
  main io linesep fs = Finished fs' printed ->
  exists content out,
    fs "README.md.notoc"%string = Some content /\
    generate_table_of_contents (universal_newlines content) = Some out /\
    read_text fs' "README.md"%string = Some out.
Proof.
  intros Hl. rewrite main_eq.
  destruct (read_fault io _) as [e|] eqn:R; [discriminate|].
  destruct (fs "README.md.notoc"%string) as [content|] eqn:E; [|discriminate].
  destruct (build_toc _) as [st|] eqn:B; [|discriminate].
  destruct (generate_table_of_contents _) as [out|] eqn:G; [|discriminate].
  destruct (write_fault io _ out) as [e|] eqn:W; [discriminate|].
  intros [= <- <-]. exists content, out. split; [reflexivity|].
  split; [exact G|]. unfold read_text.
  cbn -[universal_newlines write_newlines]. f_equal.
  apply read_back; [exact Hl|].
  apply only_newlines_no_cr. now apply (generate_only_newlines _ _ G).
Qed.

Lemma readme_reads_back_witness :
  exists fs' printed,
    main no_faults ["013"%char; "010"%char] example_files
    = Finished fs' printed /\
    exists content out,
      example_files "README.md.notoc"%string = Some content /\
      generate_table_of_contents (universal_newlines content) = Some out /\
      read_text fs' "README.md"%string = Some out.
Proof.
  destruct (main no_faults ["013"%char; "010"%char] example_files)
    as [fs' printed|e printed|] eqn:M.
  - exists fs', printed. split; [reflexivity|].
    apply (readme_reads_back no_faults ["013"%char; "010"%char]
             example_files fs' printed);
      [right; left; reflexivity|exact M].
  - vm_compute in M. discriminate.
  - vm_compute in M. discriminate.
Defined.

(** X16.  After a run that finished, on a README.md.notoc whose line ends
    are "\n", "\r\n" or "\r" (no vertical tab, form feed or other
    boundary in the file), README.md holds the first line, the title,
    one entry line per qualifying heading of the text read, and the
    remaining lines, with "\n" written as the line separator. *)
Theorem main_writes_toc (io : faults) (linesep : str) (fs fs' : files)
    (printed : list (nat * heading)) (content : str) :
  main io linesep fs = Finished fs' printed ->
  fs "README.md.notoc"%string = Some content ->
  Forall (fun c => is_linebreak c = true ->
                   c = "010"%char \/ c = "013"%char) content ->
  exists hs,
    Re.findall heading_re (universal_newlines content) = Some hs /\
    printed = map (fun h => (level h, h)) hs /\
    fs' "README.md"%string
    = Some (write_newlines linesep
              (join nl
                 (firstn 1 (splitlines (universal_newlines content))
                    ++ (L "## Table of Contents"
                          :: map entry_line (filter qualifies hs))
                    ++ skipn 1 (splitlines (universal_newlines content))))).
Proof.
  intros M E H. apply universal_newlines_only_newlines in H.
  destruct (findall_total heading_re (universal_newlines content)) as [hs F].
  assert (T : toc_lines (universal_newlines content)
              = Some (L "## Table of Contents"
                        :: map entry_line (filter qualifies hs))).
  { apply (toc_lines_explicit _ _ F). apply Forall_forall. intros h Hin _.
    now apply (heading_text_no_linebreak (universal_newlines content) hs h). }
  exists hs. split; [exact F|].
  rewrite main_eq, E, (build_toc_eq _ _ F) in M.
  unfold generate_table_of_contents in M. rewrite T in M.
  destruct (read_fault io _); [discriminate|].
  destruct (write_fault io _ _); [discriminate|].
  injection M as <- <-. split; reflexivity.
Qed.

Lemma main_writes_toc_witness :
  exists fs' printed,
    main no_faults nl example_files = Finished fs' printed /\
    exists hs,
      Re.findall heading_re
        (universal_newlines
           (L "# Title" ++ ["013"%char] ++ nl ++ L "## A" ++ ["013"%char]
              ++ nl ++ L "text")) = Some hs /\
      printed = map (fun h => (level h, h)) hs /\
      fs' "README.md"%string
      = Some (write_newlines nl
                (join nl
                   (firstn 1 (splitlines (universal_newlines
                      (L "# Title" ++ ["013"%char] ++ nl ++ L "## A"
                         ++ ["013"%char] ++ nl ++ L "text")))
                      ++ (L "## Table of Contents"
                            :: map entry_line (filter qualifies hs))
                      ++ skipn 1 (splitlines (universal_newlines
                      (L "# Title" ++ ["013"%char] ++ nl ++ L "## A"
                         ++ ["013"%char] ++ nl ++ L "text")))))).
Proof.
  destruct (main no_faults nl example_files) as [fs' printed|e printed|] eqn:M.
  - exists fs', printed. split; [reflexivity|].
    apply (main_writes_toc no_faults nl example_files fs' printed _ M eq_refl).
    apply Forall_forall. intros c Hc Hb.
    assert (C : forallb (fun c => negb (is_linebreak c)
                                  || Ascii.eqb c "010"%char
                                  || Ascii.eqb c "013"%char)
                  (L "# Title" ++ ["013"%char] ++ nl ++ L "## A"
                     ++ ["013"%char] ++ nl ++ L "text") = true)
      by (vm_compute; reflexivity).
    rewrite forallb_forall in C. apply C in Hc. rewrite Hb in Hc.
    cbn [negb orb] in Hc. apply orb_true_iff in Hc as [Hc|Hc];
      apply Ascii.eqb_eq in Hc; auto.
  - vm_compute in M. discriminate.
  - vm_compute in M. discriminate.
Defined.
